(** * A shallow embedding of the Py2Droid build script (scripts/build.py)

    The packaging stages of [ModuleBuilder] (debloat, shebang fixing,
    compression), the metadata helpers [parse_module_prop] /
    [format_module_prop], and the source-pipeline helpers of
    [CPythonBuilder] (patching, NDK toolchain discovery, build
    environment) are translated into Rocq functions.  External
    collaborators (the wcmatch glob engine, the [patch] tool, the xz
    tarball writer, directory listings) are kept abstract as section
    variables, so that the theorems hold for every behaviour of them. *)

From Stdlib Require Import Ascii String ZArith Lia.
From stdpp Require Import base gmap strings list.

Open Scope list_scope.

(** ** Install-prefix trees *)

(** A path below the install prefix, as its list of segments. *)
Abbreviation path := (list string).

(** The kinds of directory entries the debloat and shebang stages look at.
    A symlink stores the (prefix-relative) path it resolves to. *)
Inductive node :=
| File (contents : list Byte.byte)
| Dir
| Symlink (target : path).

(** A prefix tree, as the listing of its entries (path, entry). *)
Abbreviation tree := (list (path * node)).

Fixpoint lookup_entry (t : tree) (p : path) : option node :=
  match t with
  | [] => None
  | (q, n) :: t' => if bool_decide (q = p) then Some n else lookup_entry t' p
  end.

(** [os.lstat] succeeds: the entry itself exists (symlinks not followed). *)
Definition lexists (t : tree) (p : path) : bool :=
  match lookup_entry t p with Some _ => true | None => false end.

(** [os.stat]: follow symlinks, at most [fuel] of them (ELOOP otherwise). *)
Fixpoint resolve (fuel : nat) (t : tree) (p : path) : option node :=
  match fuel with
  | O => None
  | S f =>
      match lookup_entry t p with
      | Some (Symlink q) => resolve f t q
      | r => r
      end
  end.

(** Linux follows at most 40 symlinks in one lookup. *)
Definition symlink_fuel : nat := 41.

(** [Path.is_symlink], [Path.is_dir], [Path.is_file]. *)
Definition is_symlink (t : tree) (p : path) : bool :=
  match lookup_entry t p with Some (Symlink _) => true | _ => false end.

Definition is_dir (t : tree) (p : path) : bool :=
  match resolve symlink_fuel t p with Some Dir => true | _ => false end.

Definition is_file (t : tree) (p : path) : bool :=
  match resolve symlink_fuel t p with Some (File _) => true | _ => false end.

(** [q] is [p] or lies below it. *)
Fixpoint is_prefix (p q : path) : bool :=
  match p, q with
  | [], _ => true
  | a :: p', b :: q' => String.eqb a b && is_prefix p' q'
  | _ :: _, [] => false
  end.

(** [shutil.rmtree(path)]: the entry and everything below it. *)
Definition rmtree (t : tree) (p : path) : tree :=
  List.filter (fun e => negb (is_prefix p e.1)) t.

(** [path.unlink()]: the entry itself (a symlink, not its target). *)
Definition unlink (t : tree) (p : path) : tree :=
  List.filter (fun e => negb (bool_decide (e.1 = p))) t.

(** ** The debloat stage ([ModuleBuilder._debloat]) *)

(** An entry of [debloat_patterns]: a bare glob string, or a table
    [{pattern = ..., rm_if = [...]}]. *)
Inductive debloat_pattern :=
| Plain (pattern : string)
| Conditional (pattern : string) (rm_if : list string).

(** [str.lower] on ASCII text. *)
Definition lower_char (c : ascii) : ascii :=
  let n := nat_of_ascii c in
  if (65 <=? n) && (n <=? 90) then ascii_of_nat (n + 32) else c.

Fixpoint lower (s : string) : string :=
  match s with
  | EmptyString => EmptyString
  | String c s' => String (lower_char c) (lower s')
  end.

Definition str_mem (x : string) (l : list string) : bool :=
  existsb (String.eqb x) l.

(** The first loop of [_debloat]: split the rules, keeping their order. *)
Fixpoint split_patterns (ps : list debloat_pattern)
  : list string * list (string * list string) :=
  match ps with
  | [] => ([], [])
  | Plain s :: ps' =>
      let '(pl, co) := split_patterns ps' in (s :: pl, co)
  | Conditional s r :: ps' =>
      let '(pl, co) := split_patterns ps' in (pl, (s, r) :: co)
  end.

Section Debloat.

(** The wcmatch glob engine (flags GLOBSTARLONG | NEGATE | EXTGLOB | BRACE)
    is external: [glob_match t pats p] says whether the path [p] is
    selected by the pattern list [pats] on the tree [t] (wcmatch looks at
    the file system: a pattern ending in [/], or its [!] negation, tests
    whether the entry is a directory, following symlinks).  [prefix.glob]
    yields the selected entries of the tree in listing order; it is a lazy
    generator, so an entry removed while the loop runs (below a directory
    removed earlier) is not yielded any more.  The selection is taken on
    the tree as the loop starts. *)
Variable glob_match : tree -> list string -> path -> bool.

Definition glob (t : tree) (pats : list string) : list path :=
  List.filter (glob_match t pats) (map fst t).

(** Body of the loop over the unconditional patterns. *)
Definition remove_path (t : tree) (p : path) : tree :=
  if is_dir t p && negb (is_symlink t p) then rmtree t p else unlink t p.

Fixpoint remove_all (t : tree) (ps : list path) : tree :=
  match ps with
  | [] => t
  | p :: ps' =>
      if lexists t p then remove_all (remove_path t p) ps'
      else remove_all t ps'
  end.

(** Body of the loop of one conditional pattern: [None] is [continue]. *)
Definition cond_step (rm_file rm_dir rm_symlink : bool) (t : tree) (p : path)
  : option tree :=
  if (is_dir t p && negb (is_symlink t p)) && rm_dir then Some (rmtree t p)
  else if (is_symlink t p && rm_symlink) || (is_file t p && rm_file)
  then Some (unlink t p)
  else None.

Fixpoint cond_all (rm_file rm_dir rm_symlink : bool) (t : tree) (ps : list path)
  : tree :=
  match ps with
  | [] => t
  | p :: ps' =>
      if lexists t p then
        match cond_step rm_file rm_dir rm_symlink t p with
        | Some t' => cond_all rm_file rm_dir rm_symlink t' ps'
        | None => cond_all rm_file rm_dir rm_symlink t ps'
        end
      else cond_all rm_file rm_dir rm_symlink t ps'
  end.

(** One conditional pattern [{pattern = raw_pattern, rm_if = rm_if}]. *)
Definition apply_conditional (t : tree) (pat : string * list string) : tree :=
  let '(raw_pattern, rm_if) := pat in
  let rm := map lower rm_if in
  cond_all (str_mem "file" rm) (str_mem "dir" rm) (str_mem "symlink" rm)
    t (glob t [raw_pattern]).

Definition _debloat (t : tree) (debloat_patterns : list debloat_pattern) : tree :=
  let '(patterns, conditional_patterns) := split_patterns debloat_patterns in
  let t1 := remove_all t (glob t patterns) in
  fold_left apply_conditional conditional_patterns t1.

End Debloat.

(** A fragment of wcmatch's glob syntax ([*] inside a segment, [**] over
    whole segments, a trailing [/], [!] exclusions), to instantiate
    [glob_match] at concrete inputs (whose names have no leading dot, which
    [*] would skip). *)
Fixpoint seg_match (pat s : list ascii) : bool :=
  match pat with
  | [] => match s with [] => true | _ => false end
  | c :: pat' =>
      if Ascii.eqb c "*"%char then
        (fix star (s : list ascii) : bool :=
           seg_match pat' s || match s with [] => false | _ :: s' => star s' end) s
      else match s with
           | [] => false
           | c' :: s' => Ascii.eqb c c' && seg_match pat' s'
           end
  end.

Fixpoint segs_match (pat : list string) (p : path) : bool :=
  match pat with
  | [] => match p with [] => true | _ => false end
  | sg :: pat' =>
      if String.eqb sg "**" then
        (fix star (p : path) : bool :=
           segs_match pat' p || match p with [] => false | _ :: p' => star p' end) p
      else match p with
           | [] => false
           | x :: p' => seg_match (list_ascii_of_string sg) (list_ascii_of_string x)
                        && segs_match pat' p'
           end
  end.

Fixpoint split_slash_aux (acc : string) (s : string) : list string :=
  match s with
  | EmptyString => [acc]
  | String c s' =>
      if Ascii.eqb c "/"%char then acc :: split_slash_aux EmptyString s'
      else split_slash_aux (acc ++ String c EmptyString)%string s'
  end.

(** Two features look at the tree: a pattern ending in [/] matches
    directories only ([is_dir], which follows symlinks), and under NEGATE a
    pattern starting with [!] excludes what the rest of it matches.  A path
    is selected when some pattern without [!] matches it and no exclusion
    does. *)
Definition frag_match (t : tree) (pat : string) (p : path) : bool :=
  let segs := split_slash_aux EmptyString pat in
  match last segs with
  | Some EmptyString => segs_match (removelast segs) p && is_dir t p
  | _ => segs_match segs p
  end.

Definition simple_glob_match (t : tree) (pats : list string) (p : path) : bool :=
  existsb (fun pat => match pat with
                      | String c _ => negb (Ascii.eqb c "!"%char) && frag_match t pat p
                      | EmptyString => frag_match t pat p
                      end) pats &&
  negb (existsb (fun pat => match pat with
                            | String c q => Ascii.eqb c "!"%char && frag_match t q p
                            | EmptyString => false
                            end) pats).

(** ** The shebang stage ([ModuleBuilder._fix_shebangs], [is_binary]) *)

Definition bytes_of (s : string) : list Byte.byte := list_byte_of_string s.

(** [TEXT_CHARS = {7, 8, 9, 10, 12, 13, 27} | set(range(0x20, 0x100)) - {0x7F}]. *)
Definition text_char (b : Byte.byte) : bool :=
  let n := Byte.to_N b in
  existsb (N.eqb n) [7; 8; 9; 10; 12; 13; 27]%N
  || ((32 <=? n)%N && negb (n =? 127)%N).

(** [bool(data.translate(None, TEXT_CHARS))]: some byte is not deleted. *)
Definition is_binary (data : list Byte.byte) : bool :=
  existsb (fun b => negb (text_char b)) data.

(** [fin.readline(n)] on a binary file: up to and including the first
    newline, at most [n] bytes. *)
Fixpoint readline (n : nat) (bs : list Byte.byte) : list Byte.byte :=
  match n, bs with
  | O, _ => []
  | _, [] => []
  | S n', b :: bs' => if Byte.eqb b Byte.x0a then [b] else b :: readline n' bs'
  end.

(** The regex class [\s] of a bytes pattern: [ \t\n\r\f\v]. *)
Definition is_space_b (b : Byte.byte) : bool :=
  existsb (N.eqb (Byte.to_N b)) [32; 9; 10; 13; 12; 11]%N.

Fixpoint skip_ws (s : list Byte.byte) : list Byte.byte :=
  match s with
  | b :: s' => if is_space_b b then skip_ws s' else s
  | [] => []
  end.

(** Match a literal at the front, returning what follows. *)
Fixpoint strip_lit (lit s : list Byte.byte) : option (list Byte.byte) :=
  match lit, s with
  | [], _ => Some s
  | a :: l, b :: s' => if Byte.eqb a b then strip_lit l s' else None
  | _ :: _, [] => None
  end.

(** [(?:env\s+)?(?:name1|name2|...)] at the front. *)
Definition env_then_names (names : list string) (r : list Byte.byte) : bool :=
  let names_at r := existsb (fun nm => if strip_lit (bytes_of nm) r then true else false) names in
  match strip_lit (bytes_of "env") r with
  | Some (b :: r1) => (is_space_b b && names_at (skip_ws r1)) || names_at r
  | _ => names_at r
  end.

(** [re.match] of [^#!\s*/(?:usr/(?:local/)?|)(?:bin|sbin)/(?:env\s+)?NAMES]
    followed by a part that may be empty; only whether it matches is used. *)
Definition shebang_match (names : list string) (line : list Byte.byte) : bool :=
  match strip_lit (bytes_of "#!") line with
  | None => false
  | Some r =>
      match skip_ws r with
      | b :: r' =>
          Byte.eqb b Byte.x2f &&
          existsb (fun pre =>
            match strip_lit (bytes_of pre) r' with
            | Some r1 =>
                existsb (fun bn =>
                  match strip_lit (bytes_of bn) r1 with
                  | Some r2 => env_then_names names r2
                  | None => false
                  end) ["bin/"; "sbin/"]
            | None => false
            end) ["usr/local/"; "usr/"; ""]
      | [] => false
      end
  end.

(** [python_shebang_re]: [python[0-9]*(?:\.[0-9]+)*] can match empty after
    [python]. *)
Definition python_shebang_re (line : list Byte.byte) : bool :=
  shebang_match ["python"] line.

Definition shell_shebang_re (line : list Byte.byte) : bool :=
  shebang_match ["sh"; "bash"; "dash"] line.

Definition python_shebang : list Byte.byte :=
  bytes_of "#!/system/bin/python3" ++ [Byte.x0a].

Definition shell_shebang : list Byte.byte :=
  bytes_of "#!/system/bin/sh" ++ [Byte.x0a].

(** The body of the loop for one regular file: [None] is [continue] (the
    file is not written), [Some c'] is [path.write_bytes(c')] where [c']
    is [new_shebang + fin.read()]. *)
Definition fix_content (c : list Byte.byte) : option (list Byte.byte) :=
  let content := readline 1024 c in
  if is_binary content then None
  else if shell_shebang_re content then Some (shell_shebang ++ drop (length content) c)
  else if python_shebang_re content then Some (python_shebang ++ drop (length content) c)
  else None.

(** A direct child of [prefix / "bin"]. *)
Definition bin_child (p : path) : bool :=
  match p with
  | [d; _] => String.eqb d "bin"
  | _ => false
  end.

(** [_fix_shebangs]: the loop over [prefix_bin.iterdir()] visits each
    direct child once; directories and symlinks are skipped
    ([not path.is_file() or path.is_symlink()]), and the only write of an
    iteration is to the visited regular file, so the stage is the
    pointwise update below. *)
Definition fix_entry (e : path * node) : path * node :=
  let '(p, n) := e in
  if bin_child p then
    match n with
    | File c => match fix_content c with Some c' => (p, File c') | None => e end
    | _ => e
    end
  else e.

Definition _fix_shebangs (t : tree) : tree := map fix_entry t.

(** The first line of a file, with its newline. *)
Fixpoint first_line (bs : list Byte.byte) : list Byte.byte :=
  match bs with
  | [] => []
  | b :: bs' => if Byte.eqb b Byte.x0a then [b] else b :: first_line bs'
  end.

(** ** Exceptions raised by the modelled code *)

Inductive py_error :=
| BuilderError (msg : string)
| KeyError (key : string)
| OSError (filename : string)
| CalledProcessError (returncode : Z) (cmd : list string)
    (output : string) (stderr : string).

(** ** [parse_module_prop] and [format_module_prop] *)

(** Text as read by Python, on the code points 0..255: an [ascii] stands
    for the code point of the same number. *)
Abbreviation text := (list ascii).

(** Universal-newline translation of text-mode reads: [\r\n] and [\r]
    become [\n]. *)
Fixpoint translate_newlines (s : text) : text :=
  match s with
  | [] => []
  | c :: s' =>
      if Ascii.eqb c "013"%char then
        "010"%char :: translate_newlines
          (match s' with
           | d :: s'' => if Ascii.eqb d "010"%char then s'' else s'
           | [] => s'
           end)
      else c :: translate_newlines s'
  end.

(** [for line in fin]: lines with their terminating newline (the last one
    may lack it). *)
Fixpoint lines_aux (acc : text) (s : text) : list text :=
  match s with
  | [] => match acc with [] => [] | _ => [rev acc] end
  | c :: s' =>
      if Ascii.eqb c "010"%char then rev (c :: acc) :: lines_aux [] s'
      else lines_aux (c :: acc) s'
  end.

Definition file_lines (content : text) : list text :=
  lines_aux [] (translate_newlines content).

(** [str.isspace] on the code points 0..255: 9..13, 28..32, U+0085 and
    U+00A0. *)
Definition is_space_c (c : ascii) : bool :=
  let n := nat_of_ascii c in
  ((9 <=? n) && (n <=? 13)) || ((28 <=? n) && (n <=? 32)) || (n =? 133) || (n =? 160).

Fixpoint lstrip (s : text) : text :=
  match s with
  | c :: s' => if is_space_c c then lstrip s' else s
  | [] => []
  end.

(** [str.strip()]. *)
Definition strip (s : text) : text := rev (lstrip (rev (lstrip s))).

Definition startswith_hash (s : text) : bool :=
  match s with c :: _ => Ascii.eqb c "#"%char | [] => false end.

(** [str.partition("=")]. *)
Fixpoint partition_eq (s : text) : text * text * text :=
  match s with
  | [] => ([], [], [])
  | c :: s' =>
      if Ascii.eqb c "="%char then ([], ["="%char], s')
      else let '(a, m, b) := partition_eq s' in (c :: a, m, b)
  end.

(** [props[k] = v] on an insertion-ordered dict. *)
Fixpoint dict_set (d : list (text * text)) (k v : text) : list (text * text) :=
  match d with
  | [] => [(k, v)]
  | (k', v') :: d' =>
      if bool_decide (k' = k) then (k', v) :: d' else (k', v') :: dict_set d' k v
  end.

Definition parse_step (props : list (text * text)) (line : text) : list (text * text) :=
  let new_line := strip line in
  if startswith_hash new_line then props
  else let '(k, _, v) := partition_eq new_line in dict_set props k v.

(** [parse_module_prop], on the content of [module/module.prop]. *)
Definition parse_module_prop (content : text) : list (text * text) :=
  fold_left parse_step (file_lines content) [].

Definition format_module_prop (props : list (text * text)) : text :=
  List.concat (map (fun kv => kv.1 ++ ["="%char] ++ kv.2 ++ ["010"%char]) props).

(** ** Compression ([ModuleBuilder._compress]) *)

Definition arch_mapping : list (string * string) :=
  [("aarch64-linux-android", "arm64");
   ("arm-linux-androideabi", "arm");
   ("armv7a-linux-androideabi", "arm");
   ("i686-linux-android", "x86");
   ("x86_64-linux-android", "x64")].

(** [d[key]] on a dict given by its items. *)
Fixpoint dict_get (d : list (string * string)) (key : string) : option string :=
  match d with
  | [] => None
  | (k, v) :: d' => if String.eqb k key then Some v else dict_get d' key
  end.

Definition compressed_name (arch : string) : string :=
  ("cpython-" ++ arch ++ ".tar.xz")%string.

Definition BUILD_DIR : string := "build".

(** [Path.__truediv__]: an absolute right operand replaces the left one. *)
Definition path_join (a b : string) : string :=
  match b with
  | String "/"%char _ => b
  | _ => (a ++ "/" ++ b)%string
  end.

(** The files on disk, by path. *)
Abbreviation files := (gmap string (list Byte.byte)).

Section Compress.

(** The bytes [tarfile.open(.., "w:xz")] writes for [tar.add(prefix, arcname)]. *)
Variable tar_xz : string -> tree -> list Byte.byte.

(** [_compress prefix host]: the [KeyError] of [arch_mapping[host]] comes
    before the tarball is opened; opening with ["w:xz"] creates or
    truncates the file. *)
Definition _compress (fs : files) (prefix : tree) (host : string)
  : files * (py_error + string) :=
  match dict_get arch_mapping host with
  | None => (fs, inl (KeyError host))
  | Some magisk_arch =>
      let tarball_path := path_join BUILD_DIR (compressed_name magisk_arch) in
      (<[tarball_path := tar_xz "prefix" prefix]> fs, inr tarball_path)
  end.

End Compress.

(** ** Patching ([CPythonBuilder._apply_patches]) *)

(** What [subprocess.run(..., capture_output=True, text=True)] returns. *)
Record completed := {
  returncode : Z;
  stdout : string;
  stderr : string
}.

(** [needle in haystack] on strings. *)
Fixpoint str_contains (needle hay : string) : bool :=
  String.prefix needle hay ||
  match hay with
  | EmptyString => false
  | String _ hay' => str_contains needle hay'
  end.

Definition reversed_msg : string :=
  "Reversed (or previously applied) patch detected!".

(** The command line of one invocation of [patch]. *)
Definition patch_cmd (patch : string) : list string :=
  ["patch"; "-Np1"; "-sr"; "-"; "-i"; path_join "../.." patch].

Section Patches.

(** The source tree the patches act on. *)
Variable S : Type.
(** [patch.is_file()] on the entries of [PATCHES_DIR.glob("*.patch")]. *)
Variable patch_is_file : string -> bool.
(** One run of the [patch] tool in [source_dir]: its effect on the tree and
    the completed process. *)
Variable run_patch : S -> list string -> S * completed.

(** The loop of [_apply_patches] over the globbed patch files: the new
    tree, the invocations made (patch and completed process, in order,
    that is what [sys.stdout.write] echoes), and the outcome. *)
Fixpoint apply_patches_loop (s : S) (patches : list string)
  : S * list (string * completed) * (py_error + unit) :=
  match patches with
  | [] => (s, [], inr tt)
  | patch :: rest =>
      if patch_is_file patch then
        let '(s1, result) := run_patch s (patch_cmd patch) in
        if Z.eqb (returncode result) 0 then
          let '(s2, tr, r) := apply_patches_loop s1 rest in
          (s2, (patch, result) :: tr, r)
        else if str_contains reversed_msg (stdout result) then
          let '(s2, tr, r) := apply_patches_loop s1 rest in
          (s2, (patch, result) :: tr, r)
        else
          (s1, [(patch, result)],
           inl (CalledProcessError (returncode result) (patch_cmd patch)
                  (stdout result) (stderr result)))
      else apply_patches_loop s rest
  end.

Definition _apply_patches (s : S) (patches : list string)
  : S * list (string * completed) * (py_error + unit) :=
  apply_patches_loop s patches.

End Patches.

(** ** Toolchain discovery ([CPythonBuilder._find_ndk_toolchain]) *)

Definition text_of (s : string) : text := list_ascii_of_string s.

(** Lines of a text, split at [\n], without terminators. *)
Fixpoint split_nl_aux (acc : text) (s : text) : list text :=
  match s with
  | [] => [rev acc]
  | c :: s' =>
      if Ascii.eqb c "010"%char then rev acc :: split_nl_aux [] s'
      else split_nl_aux (c :: acc) s'
  end.

Fixpoint strip_prefix_t (pre s : text) : option text :=
  match pre, s with
  | [], _ => Some s
  | a :: pre', c :: s' => if Ascii.eqb a c then strip_prefix_t pre' s' else None
  | _ :: _, [] => None
  end.

(** [re.search("(?m)^ndk_version=(.+)$", content)].group(1): the first
    line that starts with [ndk_version=] followed by at least one
    character; [.] stops at [\n], [$] is the end of that line. *)
Fixpoint search_lines (ls : list text) : option text :=
  match ls with
  | [] => None
  | l :: ls' =>
      match strip_prefix_t (text_of "ndk_version=") l with
      | Some (c :: r) => Some (c :: r)
      | _ => search_lines ls'
      end
  end.

Definition search_ndk_version (content : text) : option text :=
  search_lines (split_nl_aux [] content).

Definition android_env_path (source_dir : string) : string :=
  path_join (path_join source_dir "Android") "android-env.sh".

Definition prebuilt_dir (android_home : string) (ndk_version : text) : string :=
  path_join (path_join (path_join android_home "ndk") (string_of_list_ascii ndk_version))
    "toolchains/llvm/prebuilt".

(** [_find_ndk_toolchain]: [read_text] is the text-mode read of a file
    ([None] when it cannot be opened or decoded), [environ] is
    [os.environ], [iterdir] lists the names in a directory ([None] when it
    does not exist or is not a directory). *)
Definition _find_ndk_toolchain (read_text : string -> option text)
  (environ : gmap string string) (iterdir : string -> option (list string))
  (source_dir : string) : py_error + string :=
  let android_env := android_env_path source_dir in
  match read_text android_env with
  | None => inl (OSError android_env)
  | Some raw =>
      let content := translate_newlines raw in
      match search_ndk_version content with
      | None => inl (BuilderError ("Failed to parse NDK version from file: " ++ android_env))
      | Some ndk_version =>
          match environ !! "ANDROID_HOME" with
          | None => inl (KeyError "ANDROID_HOME")
          | Some android_home =>
              let prebuilt := prebuilt_dir android_home ndk_version in
              match iterdir prebuilt with
              | None => inl (OSError prebuilt)
              | Some [] => inl (BuilderError ("NDK toolchain not found in " ++ prebuilt))
              | Some (toolchain :: _) => inr (path_join prebuilt toolchain)
              end
          end
      end
  end.

(** ** The build environment ([CPythonBuilder._create_env], [update_env_path]) *)

(** The part of the process state [_create_env] reads. *)
Record process := { os_environ : gmap string string }.

Definition pathsep : string := ":".

(** [update_env_path(env, key, *values)]. *)
Definition update_env_path (env : gmap string string) (key : string)
  (values : list string) : gmap string string :=
  match env !! key with
  | None => <[key := String.concat pathsep values]> env
  | Some p => <[key := String.concat pathsep (values ++ [p])]> env
  end.

(** [env = os.environ.copy(); env.update(configure_env)], then the two
    path updates on the copy. *)
Definition _create_env (proc : process) (configure_env : gmap string string)
  (toolchain : string) : process * gmap string string :=
  let env := configure_env ∪ os_environ proc in
  let env := update_env_path env "PATH" [path_join toolchain "bin"] in
  let env := update_env_path env "LIBRARY_PATH" [path_join toolchain "lib"] in
  (proc, env).

(** Exceptions of the code modelled below, beside [py_error]. *)
Inductive exc :=
| PyError (e : py_error)
| InvalidPlaceholder
| TypeError
| AttributeError (name : string)
| IndexError
| FileExistsError (filename : string)
| ProcessError (returncode : Z) (cmd : list string).

(** [d[k]] on an insertion-ordered dict of text keys. *)
Fixpoint dict_lookup (d : list (text * text)) (k : text) : option text :=
  match d with
  | [] => None
  | (k', v) :: d' => if bool_decide (k' = k) then Some v else dict_lookup d' k
  end.

Definition is_ident_start (c : ascii) : bool :=
  let n := nat_of_ascii c in
  Nat.eqb n 95 || ((97 <=? n) && (n <=? 122)) || ((65 <=? n) && (n <=? 90)).

Definition is_ident_char (c : ascii) : bool :=
  let n := nat_of_ascii c in
  is_ident_start c || ((48 <=? n) && (n <=? 57)).

Inductive tmpl_state :=
| TText
| TDollar
| TNamed (acc : text)
| TBrace
| TBraced (acc : text).

Definition emap (f : text -> text) (r : exc + text) : exc + text :=
  match r with inl e => inl e | inr x => inr (f x) end.

Definition map_get (m : list (text * text)) (key : text) : exc + text :=
  match dict_lookup m key with
  | Some v => inr v
  | None => inl (PyError (KeyError (string_of_list_ascii key)))
  end.

Fixpoint subst_go (m : list (text * text)) (st : tmpl_state) (s : text) : exc + text :=
  match s with
  | [] =>
      match st with
      | TText => inr []
      | TNamed acc => map_get m (rev acc)
      | _ => inl InvalidPlaceholder
      end
  | c :: s' =>
      match st with
      | TText =>
          if Ascii.eqb c "$"%char then subst_go m TDollar s'
          else emap (cons c) (subst_go m TText s')
      | TDollar =>
          if Ascii.eqb c "$"%char then emap (cons "$"%char) (subst_go m TText s')
          else if is_ident_start c then subst_go m (TNamed [c]) s'
          else if Ascii.eqb c "{"%char then subst_go m TBrace s'
          else inl InvalidPlaceholder
      | TNamed acc =>
          if is_ident_char c then subst_go m (TNamed (c :: acc)) s'
          else match map_get m (rev acc) with
               | inl e => inl e
               | inr v =>
                   emap (app v)
                     (if Ascii.eqb c "$"%char then subst_go m TDollar s'
                      else emap (cons c) (subst_go m TText s'))
               end
      | TBrace =>
          if is_ident_start c then subst_go m (TBraced [c]) s' else inl InvalidPlaceholder
      | TBraced acc =>
          if is_ident_char c then subst_go m (TBraced (c :: acc)) s'
          else if Ascii.eqb c "}"%char then
            match map_get m (rev acc) with
            | inl e => inl e
            | inr v => emap (app v) (subst_go m TText s')
            end
          else inl InvalidPlaceholder
      end
  end.

Definition substitute (template : text) (mapping : list (text * text)) : exc + text :=
  subst_go mapping TText template.

Definition description_of (cpython_version : text) : text :=
  text_of "CPython " ++ cpython_version ++ text_of " for Android".

Definition _package_module_head (module_prop : text) (description : text) (name : text)
  : exc + (string * text) :=
  let props := dict_set (parse_module_prop module_prop) (text_of "description") description in
  match substitute name props with
  | inl e => inl e
  | inr zip_name => inr (path_join "dist" (string_of_list_ascii zip_name), format_module_prop props)
  end.


(** ** External commands ([run]) *)

(** One [subprocess.run] call: the command line and the keyword arguments
    that matter here ([check] after [run] has filled in its default). *)
Record invocation := {
  argv : list string;
  inv_cwd : option string;
  inv_env : option (gmap string string);
  inv_check : bool
}.

Section Process.

(** The part of the machine the commands act on. *)
Variable St : Type.
(** Running a command to completion: the new state and the exit status
    (output is not captured by these calls). *)
Variable exec : St -> invocation -> St * Z.
(** [Path.exists()] in a state. *)
Variable file_exists : St -> string -> bool.

(** A state, error and trace monad: the commands run, in order. *)
Definition M (A : Type) : Type := St -> St * list invocation * (exc + A).

Definition ret {A} (x : A) : M A := fun s => (s, [], inr x).

Definition bind {A B} (m : M A) (f : A -> M B) : M B :=
  fun s =>
    match m s with
    | (s1, tr1, inl e) => (s1, tr1, inl e)
    | (s1, tr1, inr x) =>
        match f x s1 with
        | (s2, tr2, r) => (s2, tr1 ++ tr2, r)
        end
    end.

Notation "x <- m ;; f" := (bind m (fun x => f)) (at level 62, m at next level, right associativity).
Notation "m ;;; f" := (bind m (fun _ => f)) (at level 62, right associativity).

Definition exists_m (p : string) : M bool := fun s => (s, [], inr (file_exists s p)).

(** [run( *command, **kwargs)]: [check] defaults to [True]; with
    [check=True] a non-zero exit raises [CalledProcessError] (its output and
    stderr are [None], nothing being captured). *)
Definition run (command : list string) (cwd : option string)
  (env : option (gmap string string)) (check : option bool) : M Z :=
  fun s =>
    let inv := {| argv := command; inv_cwd := cwd; inv_env := env;
                  inv_check := match check with Some b => b | None => true end |} in
    let '(s', rc) := exec s inv in
    (s', [inv], if inv_check inv && negb (Z.eqb rc 0) then inl (ProcessError rc command) else inr rc).

(** [CPythonBuilder._download]. *)
Definition source_archive_url : string := "https://github.com/python/cpython/archive/refs/tags/".

Definition tarball_name (version : string) : string := ("v" ++ version ++ ".tar.gz")%string.

Definition curl_cmd (out url : string) : list string :=
  ["curl"; "-Lf"; "--retry"; "5"; "--retry-all-errors"; "-o"; out; url].

Definition _download (version : string) : M string :=
  let tarball_path := path_join BUILD_DIR (tarball_name version) in
  e <- exists_m tarball_path ;;
  if e then ret tarball_path
  else run (curl_cmd tarball_path (source_archive_url ++ tarball_name version)) None None None ;;;
       ret tarball_path.

(** [ModuleBuilder._download_and_include_cacert]: returns the new
    [config.include] list (appended in place in the code). *)
Definition cacert_url : string := "https://curl.se/ca/cacert.pem".

Definition _download_and_include_cacert (include : list string) : M (list string) :=
  let cacert_path := path_join BUILD_DIR "cacert.pem" in
  e <- exists_m cacert_path ;;
  if e then ret (include ++ [cacert_path])
  else run (curl_cmd cacert_path cacert_url) None None None ;;;
       ret (include ++ [cacert_path]).

(** [CPythonBuilder._build_hosts]. *)
Definition android_py : string := "./android.py".

Fixpoint build_hosts_loop (source_dir android : string) (env : gmap string string)
  (configure_args : list string) (hosts : list string) : M unit :=
  match hosts with
  | [] => ret tt
  | host :: hosts' =>
      e <- exists_m (path_join (path_join (path_join source_dir "cross-build") host) "prefix") ;;
      if e then build_hosts_loop source_dir android env configure_args hosts'
      else run ([android_py; "configure-host"; host; "--"] ++ configure_args)
             (Some android) (Some env) None ;;;
           run [android_py; "make-host"; host] (Some android) None None ;;;
           build_hosts_loop source_dir android env configure_args hosts'
  end.

Definition _build_hosts (source_dir : string) (env : gmap string string)
  (build_hosts configure_args : list string) : M unit :=
  let android := path_join source_dir "Android" in
  let cross_build := path_join source_dir "cross-build" in
  e <- exists_m (path_join cross_build "build") ;;
  (if e then ret tt
   else run [android_py; "configure-build"] (Some android) None None ;;;
        run [android_py; "make-build"] (Some android) None None ;;; ret tt) ;;;
  build_hosts_loop source_dir android env configure_args build_hosts.

End Process.

Arguments ret {St A}.
Arguments bind {St A B}.
Arguments exists_m {St}.
Arguments run {St}.
Arguments _download {St}.
Arguments _download_and_include_cacert {St}.
Arguments build_hosts_loop {St}.
Arguments _build_hosts {St}.

(** ** Start-up checks ([_prepare_environment], [_prepare_project_directory]) *)

Definition REQUIRED_TOOLS : list string := ["curl"; "patch"].

Fixpoint check_tools (which : string -> bool) (tools : list string) : py_error + unit :=
  match tools with
  | [] => inr tt
  | tool :: tools' =>
      if which tool then check_tools which tools'
      else inl (BuilderError ("Required tool not found in PATH: " ++ tool))
  end.

(** [_prepare_environment]: the new working directory and the outcome;
    [which tool] is [bool(shutil.which(tool))]. *)
Definition _prepare_environment (environ : gmap string string) (which : string -> bool)
  (cwd project_dir : string) : string * (py_error + unit) :=
  match environ !! "ANDROID_HOME" with
  | None => (cwd, inl (BuilderError "ANDROID_HOME environment variable is not set"))
  | Some _ =>
      match check_tools which REQUIRED_TOOLS with
      | inl e => (cwd, inl e)
      | inr _ => (if String.eqb cwd project_dir then cwd else project_dir, inr tt)
      end
  end.

(** [Path.exists()]: [os.stat] succeeds (symlinks followed). *)
Definition path_exists (t : tree) (p : path) : bool :=
  match resolve symlink_fuel t p with Some _ => true | None => false end.

(** [path.mkdir(parents=True)] for a path whose parent exists: an entry
    already there (a dangling symlink) makes [os.mkdir] fail. *)
Definition mkdir (t : tree) (p : path) : exc + tree :=
  if lexists t p then inl (FileExistsError (String.concat "/" p)) else inr (t ++ [(p, Dir)]).

Definition ensure_dir (t : tree) (p : path) : exc + tree :=
  if path_exists t p then inr t else mkdir t p.

(** [_prepare_project_directory] on the tree of the project directory. *)
Definition _prepare_project_directory (t : tree) : exc + tree :=
  if negb (path_exists t ["module"]) then inl (PyError (BuilderError "Module directory not found: module"))
  else if negb (path_exists t ["build.toml"]) then
    inl (PyError (BuilderError "Build configuration file not found: build.toml"))
  else match ensure_dir t ["build"] with
       | inl e => inl e
       | inr t1 => ensure_dir t1 ["dist"]
       end.

(** ** [--clean] in [main] *)

(** [d.iterdir()]: the direct children of [d], in listing order. *)
Definition children (t : tree) (d : path) : list path :=
  List.filter (fun q => match q with
                        | [x; _] => match d with [y] => String.eqb x y | _ => false end
                        | _ => false end) (map fst t).

Definition clean (t : tree) : tree :=
  let t1 := fold_left remove_path (children t ["build"]) t in
  fold_left remove_path (children t1 ["dist"]) t1.

(** ** The build configuration ([load_config], [_process_raw_config])

    In a module of its own: the field [strip] of [ModuleConfig] would
    clash with [strip] on text above. *)

Module Config.

(** The values [tomllib] produces (floats and dates are opaque here). *)
#[warnings="-register-all"]
Inductive tval :=
| TStr (s : string)
| TInt (z : Z)
| TBool (b : bool)
| TFloat
| TDatetime
| TArr (l : list tval)
| TTab (kvs : list (string * tval)).

Fixpoint assoc {A} (kvs : list (string * A)) (k : string) : option A :=
  match kvs with
  | [] => None
  | (k', v) :: kvs' => if String.eqb k' k then Some v else assoc kvs' k
  end.

(** [v[key]]: a [KeyError] on a table without [key], a [TypeError] on a
    value that is not a table. *)
Definition tget (v : tval) (key : string) : exc + tval :=
  match v with
  | TTab kvs => match assoc kvs key with Some x => inr x | None => inl (PyError (KeyError key)) end
  | _ => inl TypeError
  end.

(** [iter(v)]: arrays by element, strings by character, tables by key. *)
Definition py_iter (v : tval) : exc + list tval :=
  match v with
  | TArr l => inr l
  | TStr s => inr (map (fun c => TStr (String c EmptyString)) (list_ascii_of_string s))
  | TTab kvs => inr (map (fun kv => TStr kv.1) kvs)
  | _ => inl TypeError
  end.

(** [Path(v)], by its string (the normalisation of [pathlib] is not
    needed here). *)
Definition to_path (v : tval) : exc + string :=
  match v with TStr s => inr s | _ => inl TypeError end.

Fixpoint map_paths (l : list tval) : exc + list string :=
  match l with
  | [] => inr []
  | v :: l' =>
      match to_path v with
      | inl e => inl e
      | inr p => match map_paths l' with inl e => inl e | inr ps => inr (p :: ps) end
      end
  end.

(** [str.lstrip("v")]. *)
Fixpoint lstrip_v (s : string) : string :=
  match s with
  | String c s' => if Ascii.eqb c "v"%char then lstrip_v s' else s
  | EmptyString => EmptyString
  end.

Record CPythonConfig := {
  apply_patches : tval;
  build_hosts : tval;
  configure_args : tval;
  configure_env : tval;
  version : string
}.

Record ModuleConfig := {
  debloat : tval;
  debloat_patterns : tval;
  fix_shebangs : tval;
  include : list string;
  name : tval;
  strip : tval;
  strip_args : tval
}.

Definition cpython_fields : list string :=
  ["apply_patches"; "build_hosts"; "configure_args"; "configure_env"; "version"].

Definition module_fields : list string :=
  ["debloat"; "debloat_patterns"; "fix_shebangs"; "include"; "name"; "strip"; "strip_args"].

(** A dataclass [__init__] called with [**kvs]: every keyword must be a
    field and every field must be given. *)
Definition kwargs_match (kvs : list (string * tval)) (fields : list string) : bool :=
  forallb (fun k => existsb (String.eqb k) fields) (map fst kvs) &&
  forallb (fun f => existsb (String.eqb f) (map fst kvs)) fields.

Definition field (kvs : list (string * tval)) (f : string) : tval :=
  match assoc kvs f with Some v => v | None => TTab [] end.

Definition _process_raw_config (config : list (string * tval))
  : exc + (CPythonConfig * ModuleConfig) :=
  let cfg := TTab config in
  match tget cfg "module" with
  | inl e => inl e
  | inr module =>
  match tget module "include" with
  | inl e => inl e
  | inr module_include =>
  match tget module "name" with
  | inl e => inl e
  | inr module_name =>
  match tget cfg "cpython" with
  | inl e => inl e
  | inr cpython =>
  match tget cpython "version" with
  | inl e => inl e
  | inr cpython_version =>
  match py_iter module_include with
  | inl e => inl e
  | inr items =>
  match map_paths items with
  | inl e => inl e
  | inr include_paths =>
  match cpython_version with
  | TStr ver =>
      match cpython, module with
      | TTab cp, TTab md =>
          if negb (kwargs_match cp cpython_fields) then inl TypeError
          else if negb (kwargs_match md module_fields) then inl TypeError
          else inr ({| apply_patches := field cp "apply_patches";
                       build_hosts := field cp "build_hosts";
                       configure_args := field cp "configure_args";
                       configure_env := field cp "configure_env";
                       version := lstrip_v ver |},
                    {| debloat := field md "debloat";
                       debloat_patterns := field md "debloat_patterns";
                       fix_shebangs := field md "fix_shebangs";
                       include := include_paths;
                       name := module_name;
                       strip := field md "strip";
                       strip_args := field md "strip_args" |})
      | _, _ => inl TypeError
      end
  | _ => inl (AttributeError "lstrip")
  end end end end end end end end.

(** [load_config(file)]: [read_bytes] opens and reads the file, [toml_load]
    is [tomllib.load] ([inl msg] is a [TOMLDecodeError] with message [msg]). *)
Definition load_config (read_bytes : string -> option (list Byte.byte))
  (toml_load : list Byte.byte -> string + list (string * tval)) (file : string)
  : exc + (CPythonConfig * ModuleConfig) :=
  match read_bytes file with
  | None => inl (PyError (OSError file))
  | Some b =>
      match toml_load b with
      | inl msg => inl (PyError (BuilderError ("Failed to parse configuration file: " ++ file ++ ": " ++ msg)))
      | inr config =>
          if negb (existsb (String.eqb "cpython") (map fst config)) ||
             negb (existsb (String.eqb "module") (map fst config))
          then inl (PyError (BuilderError
                 ("Configuration file is missing 'cpython' or 'module' sections: " ++ file)))
          else _process_raw_config config
      end
  end.

End Config.

(** * Specification-side definitions and sample inputs *)

(** [sub t1 t2]: every entry of [t1] is an entry of [t2]. *)
Definition sub (t1 t2 : tree) : Prop :=
  forall p n, lookup_entry t1 p = Some n -> lookup_entry t2 p = Some n.

(** A directory [d] and a symlink [s] to it, with rules whose exclusion
    [!*/] keeps every directory, symlinks to directories included. *)
Definition symlinked_dir_tree : tree := [(["d"], Dir); (["s"], Symlink ["d"])].

Definition dir_only_rules : list debloat_pattern :=
  [Plain "*"; Plain "!*/"; Conditional "d" ["dir"]].

Definition lib_rules : list debloat_pattern :=
  [Plain "lib/*.a"; Conditional "lib/python3.13" ["dir"]].

Definition lib_tree : tree :=
  [(["lib"], Dir);
   (["lib"; "libpython3.13.a"],
      Symlink ["lib"; "python3.13"; "config-3.13"; "libpython3.13.a"]);
   (["lib"; "python3.13"], Dir);
   (["lib"; "python3.13"; "config-3.13"], Dir);
   (["lib"; "python3.13"; "config-3.13"; "libpython3.13.a"], File [])].

Definition bin_tool_nul : list Byte.byte :=
  bytes_of "#!/bin/sh" ++ [Byte.x0a; Byte.x00; Byte.x01].

Definition long_shebang_script : list Byte.byte :=
  bytes_of "#!/bin/sh" ++ repeat Byte.x20 1100 ++ [Byte.x0a] ++
  bytes_of "echo hi" ++ [Byte.x0a].

Definition prop_line (kv : text * text) : text :=
  kv.1 ++ ["="%char] ++ kv.2 ++ ["010"%char].

(** A [key=value] line that [parse_module_prop] reads back as it is. *)
Definition prop_line_ok (k v : text) : Prop :=
  (forall c, In c k -> c <> "="%char /\ c <> "010"%char /\ c <> "013"%char) /\
  (forall c, In c v -> c <> "010"%char /\ c <> "013"%char) /\
  (forall c, hd_error k = Some c -> is_space_c c = false /\ c <> "#"%char) /\
  (forall c, hd_error (rev v) = Some c -> is_space_c c = false).

Definition commented_prop : text :=
  text_of "# Magisk module" ++ ["010"%char] ++ text_of "id=py2droid" ++ ["010"%char].

(** Exit 0, or the "already applied" report on stdout. *)
Definition patch_ok (c : completed) : bool :=
  Z.eqb (returncode c) 0 || str_contains reversed_msg (stdout c).

(** The spec's build environment: the base environment overlaid with the
    overrides ... *)
Definition overlay_env (base overrides : gmap string string) (k : string) : option string :=
  match overrides !! k with
  | Some v => Some v
  | None => base !! k
  end.

(** ... and a new first entry of a path list, before every existing one. *)
Definition prepend_entry (entry : string) (old : option string) : string :=
  match old with
  | None => entry
  | Some o => (entry ++ pathsep ++ o)%string
  end.

Definition elf_head : list Byte.byte := [Byte.x7f; Byte.x45; Byte.x4c; Byte.x46; Byte.x02].

Definition bin_tree : tree :=
  [(["bin"], Dir);
   (["bin"; "python3.13"], File elf_head);
   (["bin"; "idle3"], File (bytes_of "#!/usr/bin/env python3.13" ++ [Byte.x0a] ++ bytes_of "import idlelib"))].


Definition android_env_sh : text :=
  text_of "#!/bin/bash" ++ ["010"%char] ++ text_of "ndk_version=27.2.12479018" ++ ["010"%char].

Definition sample_read (p : string) : option text :=
  if String.eqb p "cpython-3.13.1/Android/android-env.sh" then Some android_env_sh else None.

Definition sample_iterdir (p : string) : option (list string) :=
  if String.eqb p "/opt/android/ndk/27.2.12479018/toolchains/llvm/prebuilt"
  then Some ["linux-x86_64"] else None.

Definition sample_environ : gmap string string := {[ "ANDROID_HOME" := "/opt/android" ]}.

Fixpoint escape_dollars (s : text) : text :=
  match s with
  | [] => []
  | c :: s' => if Ascii.eqb c "$"%char then "$"%char :: "$"%char :: escape_dollars s'
               else c :: escape_dollars s'
  end.

(** The shape of the lines [for line in fin] yields. *)
Definition line_shape (l : text) : Prop :=
  exists body, (l = body ++ ["010"%char] \/ l = body) /\ forall c, In c body -> c <> "010"%char.

Definition curl_inv (out url : string) : invocation :=
  {| argv := curl_cmd out url; inv_cwd := None; inv_env := None; inv_check := true |}.

Definition tarball_path (version : string) : string :=
  path_join BUILD_DIR (tarball_name version).

Definition cacert_path : string := path_join BUILD_DIR "cacert.pem".

Definition setup_invs (source_dir : string) : list invocation :=
  [{| argv := [android_py; "configure-build"]; inv_cwd := Some (path_join source_dir "Android");
      inv_env := None; inv_check := true |};
   {| argv := [android_py; "make-build"]; inv_cwd := Some (path_join source_dir "Android");
      inv_env := None; inv_check := true |}].

Definition host_prefix (source_dir host : string) : string :=
  path_join (path_join (path_join source_dir "cross-build") host) "prefix".

Definition host_invs (source_dir : string) (env : gmap string string)
  (configure_args : list string) (host : string) : list invocation :=
  [{| argv := [android_py; "configure-host"; host; "--"] ++ configure_args;
      inv_cwd := Some (path_join source_dir "Android"); inv_env := Some env; inv_check := true |};
   {| argv := [android_py; "make-host"; host];
      inv_cwd := Some (path_join source_dir "Android"); inv_env := None; inv_check := true |}].

Definition parents_are_dirs (t : tree) : Prop :=
  forall p x n, lookup_entry t (p ++ [x]) = Some n -> p <> [] -> lookup_entry t p = Some Dir.

Definition parents_are_dirs_b (t : tree) : bool :=
  forallb (fun e => match removelast e.1 with
                    | [] => true
                    | p => match lookup_entry t p with Some Dir => true | _ => false end
                    end) t.

Definition below (d : string) (p : path) : bool :=
  match p with y :: _ :: _ => String.eqb y d | _ => false end.

Definition sample_exec (s : list string) (inv : invocation) : list string * Z :=
  (nth 6 (argv inv) "" :: s, 0%Z).

(** A build that creates [cpython/cross-build/<host>/prefix] on
    [make-host <host>] and succeeds on every command. *)
Definition sample_build_exec (s : list string) (inv : invocation) : list string * Z :=
  match argv inv with
  | [_; cmd; h] => if String.eqb cmd "make-host" then (host_prefix "cpython" h :: s, 0%Z)
                   else (s, 0%Z)
  | _ => (s, 0%Z)
  end.

Definition sample_exists (s : list string) (p : string) : bool := existsb (String.eqb p) s.

Definition sample_project : tree :=
  [(["build"], Dir); (["dist"], Dir); (["module"], Dir); (["build.toml"], File []);
   (["build"; "Python-3.13.1"], Dir); (["build"; "Python-3.13.1"; "configure"], File []);
   (["build"; "v3.13.1.tar.gz"], File []); (["dist"; "py2droid.zip"], File []);
   (["dist"; "latest"], Symlink ["dist"; "py2droid.zip"])].

Definition sample_config : list (string * Config.tval) :=
  [("cpython", Config.TTab
      [("apply_patches", Config.TBool true);
       ("build_hosts", Config.TArr [Config.TStr "aarch64-linux-android"]);
       ("configure_args", Config.TArr []); ("configure_env", Config.TTab []);
       ("version", Config.TStr "v3.13.1")]);
   ("module", Config.TTab
      [("debloat", Config.TBool true); ("debloat_patterns", Config.TArr []);
       ("fix_shebangs", Config.TBool true);
       ("include", Config.TArr [Config.TStr "README.md"]);
       ("name", Config.TStr "py2droid-${version}.zip");
       ("strip", Config.TBool true); ("strip_args", Config.TArr [])])].

Definition sample_read_bytes (f : string) : option (list Byte.byte) :=
  if String.eqb f "build.toml" then Some [] else None.

Definition sample_toml_load (b : list Byte.byte) : string + list (string * Config.tval) :=
  inr sample_config.

Definition sample_cpython_config : Config.CPythonConfig :=
  {| Config.apply_patches := Config.TBool true;
     Config.build_hosts := Config.TArr [Config.TStr "aarch64-linux-android"];
     Config.configure_args := Config.TArr []; Config.configure_env := Config.TTab [];
     Config.version := "3.13.1" |}.

Definition sample_module_config : Config.ModuleConfig :=
  {| Config.debloat := Config.TBool true; Config.debloat_patterns := Config.TArr [];
     Config.fix_shebangs := Config.TBool true; Config.include := ["README.md"];
     Config.name := Config.TStr "py2droid-${version}.zip";
     Config.strip := Config.TBool true; Config.strip_args := Config.TArr [] |}.

Ltac solve_in_chars :=
  let c := fresh "c" in
  let H := fresh "H" in
  intros c H; simpl in H;
  repeat (destruct H as [<-|H]; [repeat split; discriminate|]); contradiction.

(** * Theorems *)

(** ** Removal only shrinks a tree *)

Lemma sub_refl t : sub t t.
Proof. intros p n H. exact H. Qed.

Lemma sub_trans t1 t2 t3 : sub t1 t2 -> sub t2 t3 -> sub t1 t3.
Proof. intros H12 H23 p n H. apply H23, H12, H. Qed.

Lemma lookup_filter_path (g : path -> bool) t q :
  lookup_entry (List.filter (fun e => g e.1) t) q =
  if g q then lookup_entry t q else None.
Proof.
  induction t as [|[r n] t IH]; simpl.
  - destruct (g q); reflexivity.
  - destruct (g r) eqn:Hg; simpl; case_bool_decide as Hrq; subst;
      rewrite ?IH, ?Hg; auto; destruct (g q); auto.
Qed.

Lemma is_prefix_refl p : is_prefix p p = true.
Proof. induction p as [|a p IH]; simpl; [done|]. rewrite String.eqb_refl. exact IH. Qed.

Lemma lookup_rmtree t p q :
  lookup_entry (rmtree t p) q =
  if is_prefix p q then None else lookup_entry t q.
Proof.
  unfold rmtree. induction t as [|[r n] t IH]; simpl.
  - destruct (is_prefix p q); reflexivity.
  - destruct (is_prefix p r) eqn:Hr; simpl; rewrite IH.
    + destruct (is_prefix p q) eqn:Hq; [reflexivity|].
      case_bool_decide; [subst; congruence|reflexivity].
    + case_bool_decide; [subst; rewrite Hr|]; reflexivity.
Qed.

Lemma lookup_unlink t p q :
  lookup_entry (unlink t p) q =
  if bool_decide (q = p) then None else lookup_entry t q.
Proof.
  unfold unlink. induction t as [|[r n] t IH]; simpl.
  - case_bool_decide; reflexivity.
  - destruct (bool_decide (r = p)) eqn:Hr; simpl; rewrite IH.
    + apply bool_decide_eq_true in Hr. subst r.
      case_bool_decide; [reflexivity|].
      case_bool_decide; [congruence|reflexivity].
    + apply bool_decide_eq_false in Hr.
      case_bool_decide as Hrq; [subst|reflexivity].
      case_bool_decide; [congruence|reflexivity].
Qed.

Lemma sub_rmtree t p : sub (rmtree t p) t.
Proof. intros q n. rewrite lookup_rmtree. destruct (is_prefix p q); congruence. Qed.

Lemma sub_unlink t p : sub (unlink t p) t.
Proof. intros q n. rewrite lookup_unlink. case_bool_decide; congruence. Qed.

Lemma lexists_rmtree t p : lexists (rmtree t p) p = false.
Proof.
  unfold lexists. rewrite lookup_rmtree, is_prefix_refl. reflexivity.
Qed.

Lemma lexists_unlink t p : lexists (unlink t p) p = false.
Proof. unfold lexists. rewrite lookup_unlink. rewrite bool_decide_eq_true_2; done. Qed.

Lemma lexists_sub t1 t2 p : sub t1 t2 -> lexists t1 p = true -> lexists t2 p = true.
Proof.
  unfold lexists. intros H. destruct (lookup_entry t1 p) eqn:E; [|done].
  rewrite (H _ _ E). done.
Qed.

Lemma lexists_sub_false t1 t2 p : sub t1 t2 -> lexists t2 p = false -> lexists t1 p = false.
Proof.
  intros H E. destruct (lexists t1 p) eqn:E1; [|done].
  rewrite (lexists_sub _ _ _ H E1) in E. done.
Qed.

Lemma lexists_in t p : lexists t p = true <-> In p (map fst t).
Proof.
  unfold lexists. induction t as [|[q n] t IH]; simpl; [split; done|].
  case_bool_decide as Hq.
  - subst. tauto.
  - rewrite IH. split; [tauto|]. intros [H|H]; [congruence|exact H].
Qed.

Lemma resolve_sub t1 t2 fuel p n :
  sub t1 t2 -> resolve fuel t1 p = Some n -> resolve fuel t2 p = Some n.
Proof.
  intros Hs. revert p. induction fuel as [|f IH]; intros p; simpl; [done|].
  destruct (lookup_entry t1 p) as [m|] eqn:E; [|done].
  rewrite (Hs _ _ E). destruct m; auto.
Qed.

Lemma is_dir_sub t1 t2 p : sub t1 t2 -> is_dir t1 p = true -> is_dir t2 p = true.
Proof.
  unfold is_dir. intros Hs. destruct (resolve symlink_fuel t1 p) as [n|] eqn:E; [|done].
  rewrite (resolve_sub _ _ _ _ _ Hs E). done.
Qed.

Lemma is_file_sub t1 t2 p : sub t1 t2 -> is_file t1 p = true -> is_file t2 p = true.
Proof.
  unfold is_file. intros Hs. destruct (resolve symlink_fuel t1 p) as [n|] eqn:E; [|done].
  rewrite (resolve_sub _ _ _ _ _ Hs E). done.
Qed.

Lemma is_symlink_sub t1 t2 p :
  sub t1 t2 -> lexists t1 p = true -> is_symlink t1 p = is_symlink t2 p.
Proof.
  unfold lexists, is_symlink. intros Hs.
  destruct (lookup_entry t1 p) eqn:E; [|done]. rewrite (Hs _ _ E). done.
Qed.

Section DebloatProofs.

Variable glob_match : tree -> list string -> path -> bool.

Lemma remove_path_sub t p : sub (remove_path t p) t.
Proof.
  unfold remove_path. destruct (is_dir t p && negb (is_symlink t p));
    [apply sub_rmtree|apply sub_unlink].
Qed.

Lemma lexists_remove_path t p : lexists (remove_path t p) p = false.
Proof.
  unfold remove_path. destruct (is_dir t p && negb (is_symlink t p));
    [apply lexists_rmtree|apply lexists_unlink].
Qed.

Lemma remove_all_sub t ps : sub (remove_all t ps) t.
Proof.
  revert t. induction ps as [|p ps IH]; intros t; simpl; [apply sub_refl|].
  destruct (lexists t p); [|apply IH].
  eapply sub_trans; [apply IH|apply remove_path_sub].
Qed.

Lemma remove_all_gone t ps p : In p ps -> lexists (remove_all t ps) p = false.
Proof.
  revert t. induction ps as [|q ps IH]; intros t Hin; simpl in *; [done|].
  destruct Hin as [->|Hin]; [|destruct (lexists t q); apply IH, Hin].
  destruct (lexists t p) eqn:E.
  - eapply lexists_sub_false; [apply remove_all_sub|apply lexists_remove_path].
  - eapply lexists_sub_false; [apply remove_all_sub|exact E].
Qed.

Lemma cond_step_sub f d l t p t' :
  cond_step f d l t p = Some t' -> sub t' t /\ lexists t' p = false.
Proof.
  unfold cond_step.
  destruct (is_dir t p && negb (is_symlink t p) && d).
  - intros [= <-]. split; [apply sub_rmtree|apply lexists_rmtree].
  - destruct (is_symlink t p && l || is_file t p && f); [|done].
    intros [= <-]. split; [apply sub_unlink|apply lexists_unlink].
Qed.

Lemma cond_all_sub f d l t ps : sub (cond_all f d l t ps) t.
Proof.
  revert t. induction ps as [|p ps IH]; intros t; simpl; [apply sub_refl|].
  destruct (lexists t p); [|apply IH].
  destruct (cond_step f d l t p) as [t'|] eqn:C; [|apply IH].
  eapply sub_trans; [apply IH|apply (cond_step_sub _ _ _ _ _ _ C)].
Qed.

(** The test that makes a conditional rule remove an entry only gets
    truer on a larger tree. *)
Lemma cond_step_mono f d l t1 t2 p t1' :
  sub t1 t2 -> lexists t1 p = true ->
  cond_step f d l t1 p = Some t1' -> exists t2', cond_step f d l t2 p = Some t2'.
Proof.
  intros Hs He. unfold cond_step. rewrite <- (is_symlink_sub _ _ _ Hs He).
  destruct (is_dir t1 p) eqn:D1; [rewrite (is_dir_sub _ _ _ Hs D1)|];
  destruct (is_file t1 p) eqn:F1; [rewrite (is_file_sub _ _ _ Hs F1)| |rewrite (is_file_sub _ _ _ Hs F1)|];
  destruct (is_symlink t1 p), d, l, f; simpl; intros H; try discriminate;
  try (eexists; reflexivity);
  destruct (is_dir t2 p), (is_file t2 p); simpl; try discriminate; eexists; reflexivity.
Qed.

(** After the loop of one conditional rule, no entry it visited (and that
    is still there, in this tree or any smaller one) passes its test. *)
Lemma cond_all_keep f d l t ps p u :
  In p ps -> sub u (cond_all f d l t ps) -> lexists u p = true ->
  cond_step f d l u p = None.
Proof.
  revert t. induction ps as [|q ps IH]; intros t Hin Hu He; simpl in *; [done|].
  destruct (lexists t q) eqn:E.
  - destruct (cond_step f d l t q) as [t'|] eqn:C.
    + destruct Hin as [->|Hin]; [|eapply IH; eauto].
      exfalso. destruct (cond_step_sub _ _ _ _ _ _ C) as [_ Hg].
      assert (Hs : sub u t') by (eapply sub_trans; [exact Hu|apply cond_all_sub]).
      rewrite (lexists_sub _ _ _ Hs He) in Hg. discriminate.
    + destruct Hin as [->|Hin]; [|eapply IH; eauto].
      destruct (cond_step f d l u p) as [u'|] eqn:Cu; [|reflexivity].
      assert (Hs : sub u t) by (eapply sub_trans; [exact Hu|apply cond_all_sub]).
      destruct (cond_step_mono _ _ _ _ _ _ _ Hs He Cu) as [? Ct].
      congruence.
  - destruct Hin as [->|Hin]; [|eapply IH; eauto].
    exfalso. assert (Hs : sub u t) by (eapply sub_trans; [exact Hu|apply cond_all_sub]).
    rewrite (lexists_sub _ _ _ Hs He) in E. discriminate.
Qed.

Lemma cond_all_noop f d l t ps :
  (forall p, In p ps -> lexists t p = true -> cond_step f d l t p = None) ->
  cond_all f d l t ps = t.
Proof.
  induction ps as [|p ps IH]; intros H; simpl; [reflexivity|].
  destruct (lexists t p) eqn:E; [|apply IH; intros; apply H; simpl; auto].
  rewrite (H p (or_introl eq_refl) E). apply IH. intros; apply H; simpl; auto.
Qed.

Lemma apply_conditional_sub t c : sub (apply_conditional glob_match t c) t.
Proof. destruct c as [raw rm]. apply cond_all_sub. Qed.

Lemma fold_conditional_sub cs t :
  sub (fold_left (apply_conditional glob_match) cs t) t.
Proof.
  revert t. induction cs as [|c cs IH]; intros t; simpl; [apply sub_refl|].
  eapply sub_trans; [apply IH|apply apply_conditional_sub].
Qed.

Lemma in_glob t pats p :
  In p (glob glob_match t pats) <-> lexists t p = true /\ glob_match t pats p = true.
Proof. unfold glob. rewrite filter_In, lexists_in. tauto. Qed.

(** Every entry left after the conditional rules fails the test of each
    rule. *)
Lemma fold_conditional_keep cs1 raw rm cs2 t0 p :
  let tf := fold_left (apply_conditional glob_match) (cs1 ++ (raw, rm) :: cs2) t0 in
  lexists tf p = true ->
  glob_match (fold_left (apply_conditional glob_match) cs1 t0) [raw] p = true ->
  cond_step (str_mem "file" (map lower rm)) (str_mem "dir" (map lower rm))
    (str_mem "symlink" (map lower rm)) tf p = None.
Proof.
  simpl. rewrite fold_left_app. simpl.
  set (tc := fold_left (apply_conditional glob_match) cs1 t0).
  intros He Hg. eapply cond_all_keep; [|apply fold_conditional_sub|exact He].
  apply in_glob. split; [|exact Hg].
  eapply lexists_sub; [|exact He].
  eapply sub_trans; [apply fold_conditional_sub|apply cond_all_sub].
Qed.

Lemma fold_conditional_noop cs t :
  (forall c, In c cs -> apply_conditional glob_match t c = t) ->
  fold_left (apply_conditional glob_match) cs t = t.
Proof.
  revert t. induction cs as [|c cs IH]; intros t H; simpl; [reflexivity|].
  rewrite (H c (or_introl eq_refl)). apply IH. intros; apply H; simpl; auto.
Qed.

(** C5 (amended). When the rules select paths independently of the tree
    (no pattern that tests the kind of an entry, such as one ending in [/]
    or its negation), running [_debloat] with the same rules on the tree it
    produced removes nothing more: the second run returns that tree
    unchanged. *)
Theorem debloat_idempotent (t : tree) (rules : list debloat_pattern) :
  (forall t1 t2 p, glob_match t1 (split_patterns rules).1 p =
                   glob_match t2 (split_patterns rules).1 p) ->
  (forall raw rm, In (raw, rm) (split_patterns rules).2 ->
   forall t1 t2 p, glob_match t1 [raw] p = glob_match t2 [raw] p) ->
  _debloat glob_match (_debloat glob_match t rules) rules = _debloat glob_match t rules.
Proof.
  unfold _debloat. destruct (split_patterns rules) as [pats conds]. simpl.
  intros Hk1 Hk2.
  set (t0 := remove_all t (glob glob_match t pats)).
  set (t1 := fold_left (apply_conditional glob_match) conds t0).
  assert (HU : glob glob_match t1 pats = []).
  { destruct (glob glob_match t1 pats) as [|p ps] eqn:G; [reflexivity|exfalso].
    assert (Hp : In p (glob glob_match t1 pats)) by (rewrite G; left; reflexivity).
    apply in_glob in Hp as [He Hm].
    assert (Hs : sub t1 t0) by apply fold_conditional_sub.
    assert (Ht : In p (glob glob_match t pats)).
    { apply in_glob. split; [|rewrite (Hk1 t t1); exact Hm].
      eapply lexists_sub; [|exact He]. eapply sub_trans; [exact Hs|apply remove_all_sub]. }
    pose proof (remove_all_gone t _ p Ht) as Hg. fold t0 in Hg.
    rewrite (lexists_sub _ _ _ Hs He) in Hg. discriminate. }
  rewrite HU. simpl. apply fold_conditional_noop.
  intros [raw rm] Hc. unfold apply_conditional. apply cond_all_noop.
  intros p Hp He. apply in_glob in Hp as [_ Hm].
  destruct (in_split _ _ Hc) as (cs1 & cs2 & Ec).
  rewrite (Hk2 raw rm Hc t1 (fold_left (apply_conditional glob_match) cs1 t0)) in Hm.
  subst conds. apply (fold_conditional_keep cs1 raw rm cs2 t0 p He Hm).
Qed.

End DebloatProofs.

(** C5 (the claim fails). With the exclusion [!*/], the first run keeps the
    symlink [s] (it resolves to the directory [d]) and removes [d] by the
    conditional rule; the second run finds [s] dangling, no longer excluded,
    and unlinks it. *)
Theorem debloat_not_idempotent_symlinked_dir :
  _debloat simple_glob_match symlinked_dir_tree dir_only_rules = [(["s"], Symlink ["d"])] /\
  _debloat simple_glob_match (_debloat simple_glob_match symlinked_dir_tree dir_only_rules)
    dir_only_rules = [].
Proof. vm_compute. split; reflexivity. Qed.

(** ** Conditional debloat rules and symlinks *)

(** C1 (the code at a failing input). The rule [{pattern = "lib/*.a",
    rm_if = ["file"]}] does not list ["symlink"], yet the symlink
    [lib/libpython3.13.a] it matches is removed: the file branch tests
    [path.is_file()], which follows the link to the regular file it points
    to. *)
Theorem debloat_conditional_removes_symlink_to_file :
  is_symlink lib_tree ["lib"; "libpython3.13.a"] = true /\
  simple_glob_match lib_tree ["lib/*.a"] ["lib"; "libpython3.13.a"] = true /\
  str_mem "symlink" (map lower ["file"]) = false /\
  lexists (_debloat simple_glob_match lib_tree [Conditional "lib/*.a" ["file"]])
    ["lib"; "libpython3.13.a"] = false.
Proof. vm_compute. repeat split. Qed.

(** ** Shebang fixing *)

Lemma lookup_fix_shebangs t p :
  lookup_entry (_fix_shebangs t) p =
  match lookup_entry t p with Some n => Some (fix_entry (p, n)).2 | None => None end.
Proof.
  unfold _fix_shebangs. induction t as [|[q n] t IH]; cbn [map lookup_entry]; [reflexivity|].
  assert (Hq : (fix_entry (q, n)).1 = q).
  { unfold fix_entry. destruct (bin_child q); [|reflexivity].
    destruct n; try reflexivity. destruct (fix_content contents); reflexivity. }
  destruct (fix_entry (q, n)) as [q' n'] eqn:E. simpl in Hq. subst q'.
  case_bool_decide; [subst; rewrite E; reflexivity|exact IH].
Qed.

Lemma length_readline n c :
  length (readline n c) = Nat.min n (length (first_line c)).
Proof.
  revert c. induction n as [|n IH]; intros c; [reflexivity|].
  destruct c as [|b c]; [reflexivity|]. simpl.
  destruct (Byte.eqb b Byte.x0a); simpl; [lia|]. rewrite IH. reflexivity.
Qed.

(** C2 (as the code does it). A regular file in [bin/] whose first line,
    as read by [fin.readline(1024)] (up to and including the first newline,
    at most 1024 bytes), has a byte outside [TEXT_CHARS] is not rewritten. *)
Theorem fix_shebangs_skips_binary_first_line (t : tree) (p : path) (c : list Byte.byte) :
  lookup_entry t p = Some (File c) ->
  is_binary (readline 1024 c) = true ->
  lookup_entry (_fix_shebangs t) p = Some (File c).
Proof.
  intros Hl Hb. rewrite lookup_fix_shebangs, Hl. simpl.
  destruct (bin_child p); [|reflexivity].
  unfold fix_content. rewrite Hb. reflexivity.
Qed.

(** C2 (the claim fails). The NUL byte is in the first 1024 bytes but not in
    the first line, and the file is rewritten. *)
Theorem fix_shebangs_rewrites_nul_after_first_line :
  is_binary (firstn 1024 bin_tool_nul) = true /\
  lookup_entry (_fix_shebangs [(["bin"], Dir); (["bin"; "tool"], File bin_tool_nul)])
    ["bin"; "tool"] <> Some (File bin_tool_nul).
Proof. vm_compute. split; [reflexivity|discriminate]. Qed.

Lemma fix_content_target_python rest : fix_content (python_shebang ++ rest) = None.
Proof. vm_compute. reflexivity. Qed.

Lemma fix_content_target_shell rest : fix_content (shell_shebang ++ rest) = None.
Proof. vm_compute. reflexivity. Qed.

(** C4 (as the code does it). A regular file in [bin/] is either left as it
    is or becomes a target shebang followed by the original bytes after the
    first [min(1024, length of the first line)] bytes, which are all the
    bytes after the first line when that line (with its newline) has at
    most 1024 bytes; a file that starts with a target shebang line is left
    as it is. *)
Theorem fix_shebangs_replaces_first_line (t : tree) (p : path) (c : list Byte.byte) :
  lookup_entry t p = Some (File c) ->
  (lookup_entry (_fix_shebangs t) p = Some (File c) \/
   exists sb, (sb = shell_shebang \/ sb = python_shebang) /\
     lookup_entry (_fix_shebangs t) p =
       Some (File (sb ++ drop (Nat.min 1024 (length (first_line c))) c))) /\
  (forall rest, c = python_shebang ++ rest \/ c = shell_shebang ++ rest ->
     lookup_entry (_fix_shebangs t) p = Some (File c)).
Proof.
  intros Hl. rewrite lookup_fix_shebangs, Hl. simpl. split.
  - destruct (bin_child p); [|left; reflexivity].
    unfold fix_content. rewrite length_readline.
    destruct (is_binary (readline 1024 c)); [left; reflexivity|].
    destruct (shell_shebang_re (readline 1024 c)); [right; eauto|].
    destruct (python_shebang_re (readline 1024 c)); [right; eauto|left; reflexivity].
  - intros rest [-> | ->]; unfold fix_entry; destruct (bin_child p);
      rewrite ?fix_content_target_python, ?fix_content_target_shell; reflexivity.
Qed.

(** C4 (the claim fails). A script whose first line is longer than 1024
    bytes is rewritten, but the rest of that first line is kept after the
    new shebang. *)
Theorem fix_shebangs_long_first_line :
  let t := [(["bin"], Dir); (["bin"; "run"], File long_shebang_script)] in
  let after := drop (length (first_line long_shebang_script)) long_shebang_script in
  lookup_entry (_fix_shebangs t) ["bin"; "run"] <> Some (File long_shebang_script) /\
  lookup_entry (_fix_shebangs t) ["bin"; "run"] <> Some (File (shell_shebang ++ after)) /\
  lookup_entry (_fix_shebangs t) ["bin"; "run"] <> Some (File (python_shebang ++ after)).
Proof. vm_compute. repeat split; discriminate. Qed.

(** ** The metadata file *)

Lemma ascii_eqb_ne (a b : ascii) : a <> b -> Ascii.eqb a b = false.
Proof. apply Ascii.eqb_neq. Qed.

Lemma translate_newlines_id (s : text) :
  (forall c, In c s -> c <> "013"%char) -> translate_newlines s = s.
Proof.
  induction s as [|c s IH]; intros H; simpl; [reflexivity|].
  rewrite ascii_eqb_ne by (apply H; left; reflexivity).
  rewrite IH; [reflexivity|]. intros; apply H; right; assumption.
Qed.

Lemma lines_aux_line acc l rest :
  (forall c, In c l -> c <> "010"%char) ->
  lines_aux acc (l ++ "010"%char :: rest) = (rev acc ++ l ++ ["010"%char]) :: lines_aux [] rest.
Proof.
  revert acc. induction l as [|c l IH]; intros acc H; simpl.
  - reflexivity.
  - rewrite ascii_eqb_ne by (apply H; left; reflexivity).
    rewrite IH by (intros; apply H; right; assumption). simpl.
    rewrite <- app_assoc. reflexivity.
Qed.

Lemma file_lines_format kvs :
  Forall (fun kv => prop_line_ok kv.1 kv.2) kvs ->
  file_lines (format_module_prop kvs) = map prop_line kvs.
Proof.
  intros Hok. unfold file_lines.
  rewrite translate_newlines_id.
  - induction Hok as [|[k v] kvs [Hk [Hv _]] _ IH]; [reflexivity|]. simpl in Hk, Hv.
    assert (E : format_module_prop ((k, v) :: kvs) =
                (k ++ "="%char :: v) ++ "010"%char :: format_module_prop kvs).
    { unfold format_module_prop. simpl. rewrite <- !app_assoc. simpl.
      rewrite <- !app_assoc. reflexivity. }
    rewrite E, lines_aux_line, IH.
    + unfold prop_line. simpl. rewrite <- !app_assoc. reflexivity.
    + intros c Hc. apply in_app_or in Hc as [Hc|[<-|Hc]].
      * apply Hk, Hc.
      * discriminate.
      * apply Hv, Hc.
  - intros c Hc. unfold format_module_prop in Hc.
    apply in_concat in Hc as (l & Hl & Hc). apply in_map_iff in Hl as ([k v] & <- & Hin).
    rewrite List.Forall_forall in Hok. destruct (Hok _ Hin) as [Hk [Hv _]]. simpl in *.
    apply in_app_or in Hc as [Hc|Hc]; [apply Hk, Hc|].
    destruct Hc as [<-|Hc]; [discriminate|].
    apply in_app_or in Hc as [Hc|[<-|[]]]; [apply Hv, Hc|discriminate].
Qed.

Lemma strip_prop_line k v : prop_line_ok k v -> strip (prop_line (k, v)) = k ++ "="%char :: v.
Proof.
  intros (_ & _ & Hk & Hv). unfold strip, prop_line. simpl.
  assert (E : k ++ "="%char :: v ++ ["010"%char] = (k ++ "="%char :: v) ++ ["010"%char])
    by (rewrite <- app_assoc; reflexivity).
  rewrite E.
  assert (H1 : lstrip ((k ++ "="%char :: v) ++ ["010"%char]) = (k ++ "="%char :: v) ++ ["010"%char]).
  { destruct k as [|c k]; simpl; [reflexivity|].
    destruct (Hk c eq_refl) as [Hs _]. rewrite Hs. reflexivity. }
  rewrite H1, rev_app_distr. simpl.
  rewrite rev_app_distr. simpl.
  destruct (rev v) as [|c rv] eqn:Ev; simpl.
  - assert (v = []) by (rewrite <- (rev_involutive v), Ev; reflexivity). subst v.
    rewrite rev_involutive. reflexivity.
  - rewrite (Hv c eq_refl). simpl.
    rewrite ?rev_app_distr, ?rev_involutive. simpl.
    rewrite <- (rev_involutive v), Ev. simpl. rewrite <- ?app_assoc. reflexivity.
Qed.

Lemma partition_prop_line k v :
  (forall c, In c k -> c <> "="%char) -> partition_eq (k ++ "="%char :: v) = (k, ["="%char], v).
Proof.
  induction k as [|c k IH]; intros H; simpl; [reflexivity|].
  rewrite ascii_eqb_ne by (apply H; left; reflexivity).
  rewrite IH by (intros; apply H; right; assumption). reflexivity.
Qed.

Lemma parse_step_line props k v :
  prop_line_ok k v -> parse_step props (prop_line (k, v)) = dict_set props k v.
Proof.
  intros Hok. unfold parse_step. rewrite strip_prop_line by exact Hok.
  destruct Hok as (Hk & _ & Hh & _).
  assert (Hs : startswith_hash (k ++ "="%char :: v) = false).
  { destruct k as [|c k]; [reflexivity|]. simpl.
    apply ascii_eqb_ne. apply (Hh c eq_refl). }
  rewrite Hs, partition_prop_line by (intros c Hc; apply (Hk c Hc)). reflexivity.
Qed.

Lemma dict_set_new d k v : ~ In k (map fst d) -> dict_set d k v = d ++ [(k, v)].
Proof.
  induction d as [|[k' v'] d IH]; intros H; simpl; [reflexivity|].
  simpl in H. case_bool_decide; [tauto|]. rewrite IH by tauto. reflexivity.
Qed.

Lemma fold_parse_lines d kvs :
  NoDup (map fst kvs) ->
  (forall k, In k (map fst kvs) -> ~ In k (map fst d)) ->
  Forall (fun kv => prop_line_ok kv.1 kv.2) kvs ->
  fold_left parse_step (map prop_line kvs) d = d ++ kvs.
Proof.
  revert d. induction kvs as [|[k v] kvs IH]; intros d Hnd Hd Hok; simpl.
  - rewrite app_nil_r. reflexivity.
  - inversion Hnd as [|? ? Hnot Hnd']; subst. inversion Hok as [|? ? Hkv Hok']; subst.
    rewrite parse_step_line by exact Hkv.
    rewrite dict_set_new by (apply Hd; left; reflexivity).
    rewrite IH; [rewrite <- app_assoc; reflexivity|exact Hnd'| |exact Hok'].
    intros k' Hk' Hin. rewrite map_app in Hin. apply in_app_or in Hin as [Hin|[Heq|[]]].
    + apply (Hd k'); [right; exact Hk'|exact Hin].
    + simpl in Heq. subst. apply Hnot. apply list_elem_of_In. exact Hk'.
Qed.



(** ** Compression *)

Lemma dict_get_none d k : ~ In k (map fst d) -> dict_get d k = None.
Proof.
  induction d as [|[k' v] d IH]; intros H; simpl in *; [reflexivity|].
  destruct (String.eqb k' k) eqn:E.
  - apply String.eqb_eq in E. subst. tauto.
  - apply IH. tauto.
Qed.

Section CompressProofs.

Variable tar_xz : string -> tree -> list Byte.byte.

(** C6. An unmapped host triplet raises the [KeyError] of the mapping and
    leaves the files as they are (no tarball); a mapped one writes exactly
    the one tarball [build/cpython-ARCH.tar.xz] of its short name. *)
Theorem compress_unmapped_or_single_tarball (fs : files) (prefix : tree) (host : string) :
  (~ In host (map fst arch_mapping) ->
   _compress tar_xz fs prefix host = (fs, inl (KeyError host))) /\
  (forall arch, dict_get arch_mapping host = Some arch ->
   _compress tar_xz fs prefix host =
     (<[path_join BUILD_DIR (compressed_name arch) := tar_xz "prefix" prefix]> fs,
      inr (path_join BUILD_DIR (compressed_name arch)))).
Proof.
  unfold _compress. split.
  - intros H. rewrite dict_get_none by exact H. reflexivity.
  - intros arch ->. reflexivity.
Qed.

(** C10. [arm-linux-androideabi] and [armv7a-linux-androideabi] both map to
    [arm]: compressing the second host's prefix after the first's returns
    the same path, and the file there holds only the second tarball. *)
Theorem compress_arm_hosts_collide (fs : files) (prefix1 prefix2 : tree) :
  let '(fs1, r1) := _compress tar_xz fs prefix1 "arm-linux-androideabi" in
  let '(fs2, r2) := _compress tar_xz fs1 prefix2 "armv7a-linux-androideabi" in
  r1 = inr "build/cpython-arm.tar.xz" /\ r2 = r1 /\
  fs2 = <["build/cpython-arm.tar.xz" := tar_xz "prefix" prefix2]> fs.
Proof.
  simpl. split; [reflexivity|split; [reflexivity|]].
  apply insert_insert_eq.
Qed.

End CompressProofs.

(** ** Patching *)

Section PatchProofs.

Variable S : Type.
Variable patch_is_file : string -> bool.
Variable run_patch : S -> list string -> S * completed.

Lemma apply_patches_loop_outcome s ps s' tr r :
  apply_patches_loop S patch_is_file run_patch s ps = (s', tr, r) ->
  (r = inr tt ->
     map fst tr = List.filter patch_is_file ps /\
     Forall (fun pc => patch_ok pc.2 = true) tr) /\
  (forall e, r = inl e ->
     exists pre p c rest,
       tr = pre ++ [(p, c)] /\
       Forall (fun pc => patch_ok pc.2 = true) pre /\
       patch_ok c = false /\ returncode c <> 0%Z /\
       e = CalledProcessError (returncode c) (patch_cmd p) (stdout c) (stderr c) /\
       List.filter patch_is_file ps = map fst pre ++ p :: rest).
Proof.
  revert s s' tr r. induction ps as [|p ps IH]; intros s s' tr r H; simpl in H.
  - inversion H; subst. split; [intros _; split; constructor|discriminate].
  - simpl. destruct (patch_is_file p) eqn:Hf; [|exact (IH _ _ _ _ H)].
    destruct (run_patch s (patch_cmd p)) as [s1 c] eqn:Hrun.
    destruct (apply_patches_loop S patch_is_file run_patch s1 ps) as [[s2 tr'] r'] eqn:Hrest.
    destruct (IH _ _ _ _ Hrest) as [Hok Herr].
    assert (Hcont : patch_ok c = true ->
      (r' = inr tt -> map fst ((p, c) :: tr') = p :: List.filter patch_is_file ps /\
         Forall (fun pc => patch_ok pc.2 = true) ((p, c) :: tr')) /\
      (forall e, r' = inl e -> exists pre p0 c0 rest,
         (p, c) :: tr' = pre ++ [(p0, c0)] /\ Forall (fun pc => patch_ok pc.2 = true) pre /\
         patch_ok c0 = false /\ returncode c0 <> 0%Z /\
         e = CalledProcessError (returncode c0) (patch_cmd p0) (stdout c0) (stderr c0) /\
         p :: List.filter patch_is_file ps = map fst pre ++ p0 :: rest)).
    { intros Hc. split.
      - intros Hr. destruct (Hok Hr) as [Hm Hfa]. simpl. rewrite Hm.
        split; [reflexivity|constructor; assumption].
      - intros e He. destruct (Herr e He) as (pre & p0 & c0 & rest & -> & Hpre & Hc0 & Hrc & He' & Hfil).
        exists ((p, c) :: pre), p0, c0, rest. simpl. rewrite Hfil.
        repeat split; try assumption. constructor; assumption. }
    destruct (Z.eqb (returncode c) 0) eqn:Hz.
    + inversion H; subst. apply Hcont. unfold patch_ok. rewrite Hz. reflexivity.
    + destruct (str_contains reversed_msg (stdout c)) eqn:Hm.
      * inversion H; subst. apply Hcont. unfold patch_ok. rewrite Hz, Hm. reflexivity.
      * inversion H; subst. split; [discriminate|].
        intros e [= <-]. exists [], p, c, (List.filter patch_is_file ps).
        unfold patch_ok. rewrite Hz, Hm. repeat split; try constructor.
        intros Hc. rewrite Hc in Hz. discriminate.
Qed.

(** C7. [_apply_patches] runs [patch] on the patch files in order: a run
    that exits 0 or reports an already applied (reversed) patch lets the
    next patch run; the first other run ends the loop with a
    [CalledProcessError] carrying its exit code, stdout and stderr, and no
    later patch is run. When no run fails, every patch file was run. *)
Theorem apply_patches_outcome (s : S) (patches : list string) :
  let '(s', tr, r) := _apply_patches S patch_is_file run_patch s patches in
  (r = inr tt ->
     map fst tr = List.filter patch_is_file patches /\
     Forall (fun pc => patch_ok pc.2 = true) tr) /\
  (forall e, r = inl e ->
     exists pre p c rest,
       tr = pre ++ [(p, c)] /\
       Forall (fun pc => patch_ok pc.2 = true) pre /\
       patch_ok c = false /\ returncode c <> 0%Z /\
       e = CalledProcessError (returncode c) (patch_cmd p) (stdout c) (stderr c) /\
       List.filter patch_is_file patches = map fst pre ++ p :: rest).
Proof.
  unfold _apply_patches.
  destruct (apply_patches_loop S patch_is_file run_patch s patches) as [[s' tr] r] eqn:E.
  exact (apply_patches_loop_outcome _ _ _ _ _ E).
Qed.

End PatchProofs.

(** ** Toolchain discovery *)

(** C8. With a readable [Android/android-env.sh] and [ANDROID_HOME] set
    (checked by [init]): when no line [ndk_version=...] is found the result
    is the parse [BuilderError], whatever the directories hold (no listing is
    made); otherwise the result is the first entry listed in
    [$ANDROID_HOME/ndk/<version>/toolchains/llvm/prebuilt], and an error
    exactly when that directory has no entry (or cannot be listed). *)
Theorem find_ndk_toolchain_spec (read_text : string -> option text)
  (environ : gmap string string) (iterdir : string -> option (list string))
  (source_dir : string) (raw : text) (android_home : string) :
  read_text (android_env_path source_dir) = Some raw ->
  environ !! "ANDROID_HOME" = Some android_home ->
  (search_ndk_version (translate_newlines raw) = None ->
   _find_ndk_toolchain read_text environ iterdir source_dir =
     inl (BuilderError ("Failed to parse NDK version from file: " ++ android_env_path source_dir))) /\
  (forall ndk_version, search_ndk_version (translate_newlines raw) = Some ndk_version ->
   match iterdir (prebuilt_dir android_home ndk_version) with
   | Some (toolchain :: _) =>
       _find_ndk_toolchain read_text environ iterdir source_dir =
         inr (path_join (prebuilt_dir android_home ndk_version) toolchain)
   | _ => exists e, _find_ndk_toolchain read_text environ iterdir source_dir = inl e
   end) /\
  ((exists e, _find_ndk_toolchain read_text environ iterdir source_dir = inl e) <->
   search_ndk_version (translate_newlines raw) = None \/
   exists ndk_version, search_ndk_version (translate_newlines raw) = Some ndk_version /\
     forall x xs, iterdir (prebuilt_dir android_home ndk_version) <> Some (x :: xs)).
Proof.
  intros Hr He. unfold _find_ndk_toolchain. rewrite Hr.
  destruct (search_ndk_version (translate_newlines raw)) as [v|] eqn:Hs.
  - rewrite He. split; [discriminate|]. split.
    + intros v' [= <-].
      destruct (iterdir (prebuilt_dir android_home v)) as [[|x xs]|]; eauto.
    + split.
      * intros [e Hf]. right. exists v. split; [reflexivity|].
        intros x xs Hi. rewrite Hi in Hf. discriminate.
      * intros [[=]|[v' [[= <-] Hn]]].
        destruct (iterdir (prebuilt_dir android_home v)) as [[|x xs]|] eqn:Hi; eauto.
        exfalso. exact (Hn x xs eq_refl).
  - split; [reflexivity|]. split; [discriminate|].
    split; [intros _; left; reflexivity|intros _; eauto].
Qed.

(** ** The build environment *)

(** C9. [_create_env] leaves the process environment as it is and returns
    the base environment overlaid with the overrides, where [PATH] gets
    [toolchain/bin] and [LIBRARY_PATH] gets [toolchain/lib] as first entry,
    before their previous value (or as their only entry when unset). *)
Theorem create_env_overlay (proc : process) (configure_env : gmap string string)
  (toolchain : string) :
  let '(proc', env) := _create_env proc configure_env toolchain in
  proc' = proc /\
  forall k,
    env !! k =
      if bool_decide (k = "LIBRARY_PATH") then
        Some (prepend_entry (path_join toolchain "lib")
                (overlay_env (os_environ proc) configure_env "LIBRARY_PATH"))
      else if bool_decide (k = "PATH") then
        Some (prepend_entry (path_join toolchain "bin")
                (overlay_env (os_environ proc) configure_env "PATH"))
      else overlay_env (os_environ proc) configure_env k.
Proof.
  unfold _create_env. split; [reflexivity|]. intros k.
  assert (Hu : forall j, (configure_env ∪ os_environ proc) !! j =
                         overlay_env (os_environ proc) configure_env j).
  { intros j. unfold overlay_env. rewrite lookup_union.
    destruct (configure_env !! j), (os_environ proc !! j); reflexivity. }
  assert (Hp : (update_env_path (configure_env ∪ os_environ proc) "PATH"
                  [path_join toolchain "bin"]) !! "LIBRARY_PATH" =
               overlay_env (os_environ proc) configure_env "LIBRARY_PATH").
  { unfold update_env_path. rewrite <- Hu.
    destruct ((configure_env ∪ os_environ proc) !! "PATH");
      rewrite lookup_insert_ne by discriminate; reflexivity. }
  unfold update_env_path at 1. rewrite Hp.
  case_bool_decide as HL.
  - subst k. destruct (overlay_env (os_environ proc) configure_env "LIBRARY_PATH");
      rewrite lookup_insert_eq; reflexivity.
  - assert (Hq : forall m (x : string),
              (<["LIBRARY_PATH" := x]> m) !! k = m !! k)
      by (intros; apply lookup_insert_ne; congruence).
    destruct (overlay_env (os_environ proc) configure_env "LIBRARY_PATH"); rewrite Hq;
    unfold update_env_path; rewrite Hu;
    (case_bool_decide as HP;
     [subst k; destruct (overlay_env (os_environ proc) configure_env "PATH");
      rewrite lookup_insert_eq; reflexivity|]);
    destruct (overlay_env (os_environ proc) configure_env "PATH");
    rewrite lookup_insert_ne by congruence; rewrite Hu; reflexivity.
Qed.

Lemma dict_set_keys_in d k v : In k (map fst d) -> map fst (dict_set d k v) = map fst d.
Proof.
  induction d as [|[k' v'] d IH]; simpl; [tauto|].
  intros Hin. case_bool_decide as E; simpl; [subst; reflexivity|].
  rewrite IH; [reflexivity|]. destruct Hin; [congruence|assumption].
Qed.

Lemma dict_set_nodup d k v : NoDup (map fst d) -> NoDup (map fst (dict_set d k v)).
Proof.
  intros H. destruct (decide (k ∈ map fst d)) as [Hin|Hin]; rewrite list_elem_of_In in Hin.
  - rewrite dict_set_keys_in by exact Hin. exact H.
  - rewrite dict_set_new by exact Hin. rewrite map_app. simpl.
    apply NoDup_app. split; [exact H|]. split; [|apply NoDup_singleton].
    intros x Hx Hy. apply list_elem_of_singleton in Hy. subst.
    apply Hin, list_elem_of_In, Hx.
Qed.

Lemma dict_set_forall (P : text -> text -> Prop) d k v :
  Forall (fun kv => P kv.1 kv.2) d -> P k v -> Forall (fun kv => P kv.1 kv.2) (dict_set d k v).
Proof.
  induction d as [|[k' v'] d IH]; intros Hd Hkv; simpl; [constructor; [exact Hkv|constructor]|].
  inversion Hd; subst. case_bool_decide; subst; constructor; auto.
Qed.

Lemma dict_lookup_set_eq d k v : dict_lookup (dict_set d k v) k = Some v.
Proof.
  induction d as [|[k' v'] d IH]; simpl; [rewrite bool_decide_true by reflexivity; reflexivity|].
  case_bool_decide; simpl.
  - rewrite bool_decide_true by assumption. reflexivity.
  - rewrite bool_decide_false by assumption. exact IH.
Qed.

Lemma dict_lookup_set_ne d k v k' : k' <> k -> dict_lookup (dict_set d k v) k' = dict_lookup d k'.
Proof.
  intros Hne. induction d as [|[k0 v0] d IH]; simpl.
  - rewrite bool_decide_false by congruence. reflexivity.
  - case_bool_decide as E; simpl.
    + subst. rewrite !bool_decide_false by congruence. reflexivity.
    + case_bool_decide; [reflexivity|exact IH].
Qed.

Lemma parse_nodup_aux lines d :
  NoDup (map fst d) -> NoDup (map fst (fold_left parse_step lines d)).
Proof.
  revert d. induction lines as [|l ls IH]; intros d H; simpl; [exact H|].
  apply IH. unfold parse_step. destruct (startswith_hash (strip l)); [exact H|].
  destruct (partition_eq (strip l)) as [[k m] v]. apply dict_set_nodup, H.
Qed.

(* Text facts: no CR after translation, line shapes, strip. *)

Lemma translate_newlines_strong (P : text -> Prop) :
  P [] ->
  (forall c s, Ascii.eqb c "013"%char = false -> P s -> P (c :: s)) ->
  P ["013"%char] ->
  (forall s, P s -> P ("013"%char :: "010"%char :: s)) ->
  (forall d s, Ascii.eqb d "010"%char = false -> P (d :: s) -> P ("013"%char :: d :: s)) ->
  forall s, P s.
Proof.
  intros H0 Hc Hr Hrn Hrd.
  assert (forall n s, length s <= n -> P s) as G.
  { induction n as [|n IH]; intros s Hl.
    - destruct s; [exact H0|simpl in *; lia].
    - destruct s as [|c s]; [exact H0|].
      destruct (Ascii.eqb c "013"%char) eqn:Ec.
      + apply Ascii.eqb_eq in Ec. subst c. destruct s as [|d s].
        * exact Hr.
        * destruct (Ascii.eqb d "010"%char) eqn:Ed.
          -- apply Ascii.eqb_eq in Ed. subst d. apply Hrn, IH. simpl in *; lia.
          -- apply Hrd; [exact Ed|]. apply IH. simpl in *; lia.
      + apply Hc; [exact Ec|]. apply IH. simpl in *; lia. }
  intros s. apply (G (length s)). lia.
Qed.

Lemma tn_c c s : Ascii.eqb c "013"%char = false -> translate_newlines (c :: s) = c :: translate_newlines s.
Proof. intros H. simpl. rewrite H. reflexivity. Qed.

Lemma tn_r : translate_newlines ["013"%char] = ["010"%char].
Proof. reflexivity. Qed.

Lemma tn_rn s : translate_newlines ("013"%char :: "010"%char :: s) = "010"%char :: translate_newlines s.
Proof. reflexivity. Qed.

Lemma tn_rd d s : Ascii.eqb d "010"%char = false ->
  translate_newlines ("013"%char :: d :: s) = "010"%char :: translate_newlines (d :: s).
Proof. intros H. simpl. rewrite H. reflexivity. Qed.

Lemma translate_newlines_no_cr s c : In c (translate_newlines s) -> c <> "013"%char.
Proof.
  revert s. apply (translate_newlines_strong (fun s => In c (translate_newlines s) -> c <> "013"%char)).
  - simpl. tauto.
  - intros c' s Hc' IH. rewrite tn_c by exact Hc'. intros [<-|H]; [|auto].
    intros ->. discriminate.
  - rewrite tn_r. intros [<-|[]]. discriminate.
  - intros s IH. rewrite tn_rn. intros [<-|H]; [discriminate|auto].
  - intros d s Hd IH. rewrite tn_rd by exact Hd. intros [<-|H]; [discriminate|auto].
Qed.

Lemma translate_newlines_app a b :
  last a = Some "010"%char ->
  translate_newlines (a ++ b) = translate_newlines a ++ translate_newlines b.
Proof.
  revert a. apply (translate_newlines_strong (fun a => last a = Some "010"%char ->
    translate_newlines (a ++ b) = translate_newlines a ++ translate_newlines b)).
  - discriminate.
  - intros c s Hc IH Hl. rewrite <- app_comm_cons, !tn_c by exact Hc.
    destruct s as [|d s].
    + reflexivity.
    + rewrite IH; [reflexivity|exact Hl].
  - discriminate.
  - intros s IH Hl. rewrite <- !app_comm_cons, !tn_rn.
    destruct s as [|d s]; [reflexivity|]. rewrite IH; [reflexivity|exact Hl].
  - intros d s Hd IH Hl. rewrite <- !app_comm_cons, !tn_rd by exact Hd.
    rewrite app_comm_cons, IH; [reflexivity|exact Hl].
Qed.

Lemma translate_newlines_last a :
  last a = Some "010"%char -> last (translate_newlines a) = Some "010"%char.
Proof.
  revert a. apply (translate_newlines_strong (fun a => last a = Some "010"%char ->
    last (translate_newlines a) = Some "010"%char)).
  - discriminate.
  - intros c s Hc IH Hl. rewrite tn_c by exact Hc.
    destruct s as [|d s].
    + simpl in Hl. injection Hl as ->. reflexivity.
    + specialize (IH Hl). destruct (translate_newlines (d :: s)) eqn:E; [discriminate|].
      exact IH.
  - discriminate.
  - intros s IH Hl. rewrite tn_rn.
    destruct s as [|d s]; [reflexivity|]. specialize (IH Hl).
    destruct (translate_newlines (d :: s)); [discriminate|exact IH].
  - intros d s Hd IH Hl. rewrite tn_rd by exact Hd. specialize (IH Hl).
    destruct (translate_newlines (d :: s)); [discriminate|exact IH].
Qed.

Lemma lines_aux_app x y acc :
  last x = Some "010"%char -> lines_aux acc (x ++ y) = lines_aux acc x ++ lines_aux [] y.
Proof.
  revert acc. induction x as [|c x IH]; intros acc Hl; [discriminate|].
  destruct x as [|d x].
  - simpl in Hl. injection Hl as ->. reflexivity.
  - change ((c :: d :: x) ++ y) with (c :: ((d :: x) ++ y)).
    cbn [lines_aux]. destruct (Ascii.eqb c "010"%char).
    + rewrite IH by exact Hl. reflexivity.
    + apply IH, Hl.
Qed.

Lemma file_lines_app a b :
  (a = [] \/ last a = Some "010"%char) -> file_lines (a ++ b) = file_lines a ++ file_lines b.
Proof.
  intros [->|Hl]; [reflexivity|]. unfold file_lines.
  rewrite translate_newlines_app by exact Hl.
  apply lines_aux_app, translate_newlines_last, Hl.
Qed.

Lemma lines_aux_shape s acc l :
  (forall c, In c acc -> c <> "010"%char) -> In l (lines_aux acc s) ->
  (forall c, In c l -> In c acc \/ In c s) /\ line_shape l.
Proof.
  revert acc. induction s as [|c s IH]; intros acc Hacc Hin.
  - simpl in Hin. destruct acc as [|a acc]; [destruct Hin|].
    destruct Hin as [<-|[]]. split.
    + intros c Hc. left. apply in_rev, Hc.
    + exists (rev (a :: acc)). split; [right; reflexivity|]. intros c Hc. apply Hacc, in_rev, Hc.
  - simpl in Hin. destruct (Ascii.eqb c "010"%char) eqn:E.
    + apply Ascii.eqb_eq in E. subst c. destruct Hin as [<-|Hin].
      * split.
        -- intros c Hc. simpl in Hc. apply in_app_or in Hc. destruct Hc as [Hc|[<-|[]]].
           ++ left. apply in_rev, Hc.
           ++ right. left. reflexivity.
        -- exists (rev acc). split; [left; reflexivity|]. intros c Hc. apply Hacc, in_rev, Hc.
      * destruct (IH [] ltac:(simpl; tauto) Hin) as [Hs Hsh]. split; [|exact Hsh].
        intros c Hc. destruct (Hs c Hc) as [[]|H]. right. right. exact H.
    + destruct (IH (c :: acc)) as [Hs Hsh]; [|exact Hin|].
      * intros c' [<-|Hc']; [|apply Hacc, Hc']. intros ->. discriminate.
      * split; [|exact Hsh]. intros c' Hc'. destruct (Hs c' Hc') as [[<-|H]|H].
        -- right. left. reflexivity.
        -- left. exact H.
        -- right. right. exact H.
Qed.

Lemma file_lines_shape s l :
  In l (file_lines s) -> (forall c, In c l -> c <> "013"%char) /\ line_shape l.
Proof.
  intros Hin. destruct (lines_aux_shape (translate_newlines s) [] l ltac:(simpl; tauto) Hin)
    as [Hs Hsh]. split; [|exact Hsh].
  intros c Hc. destruct (Hs c Hc) as [[]|H]. apply (translate_newlines_no_cr s), H.
Qed.

Lemma lstrip_suffix x : exists pre, x = pre ++ lstrip x.
Proof.
  induction x as [|c x IH]; [exists []; reflexivity|]. simpl.
  destruct (is_space_c c).
  - destruct IH as [pre Hpre]. exists (c :: pre). simpl. f_equal. exact Hpre.
  - exists []. reflexivity.
Qed.

Lemma lstrip_hd x c : hd_error (lstrip x) = Some c -> is_space_c c = false.
Proof.
  induction x as [|a x IH]; simpl; [discriminate|].
  destruct (is_space_c a) eqn:E; [exact IH|]. simpl. intros [= <-]. exact E.
Qed.

Lemma strip_prefix_of_lstrip x : exists q, lstrip x = strip x ++ q.
Proof.
  unfold strip. destruct (lstrip_suffix (rev (lstrip x))) as [pre Hpre].
  exists (rev pre). rewrite <- rev_app_distr, <- Hpre, rev_involutive. reflexivity.
Qed.

Lemma strip_hd x c : hd_error (strip x) = Some c -> is_space_c c = false /\ hd_error (lstrip x) = Some c.
Proof.
  intros H. destruct (strip_prefix_of_lstrip x) as [q Hq].
  destruct (strip x) as [|a r] eqn:E; [discriminate|]. simpl in H. injection H as <-.
  assert (hd_error (lstrip x) = Some a) as Ha by (rewrite Hq; reflexivity).
  split; [apply (lstrip_hd x), Ha|exact Ha].
Qed.

Lemma strip_last x c : hd_error (rev (strip x)) = Some c -> is_space_c c = false.
Proof. unfold strip. rewrite rev_involutive. apply lstrip_hd. Qed.

Lemma strip_in x c : In c (strip x) -> In c x.
Proof.
  intros H. destruct (strip_prefix_of_lstrip x) as [q Hq].
  destruct (lstrip_suffix x) as [pre Hpre].
  rewrite Hpre, Hq. apply in_or_app. right. apply in_or_app. left. exact H.
Qed.

Lemma lstrip_snoc x c :
  lstrip (x ++ [c]) = match lstrip x with [] => lstrip [c] | y => y ++ [c] end.
Proof.
  induction x as [|a x IH]; [reflexivity|]. simpl.
  destruct (is_space_c a); [exact IH|reflexivity].
Qed.

Lemma strip_snoc_space x c : is_space_c c = true -> strip (x ++ [c]) = strip x.
Proof.
  intros Hc. unfold strip. rewrite lstrip_snoc.
  destruct (lstrip x) as [|a y] eqn:E.
  - simpl. rewrite Hc. reflexivity.
  - rewrite rev_app_distr. simpl. rewrite Hc. reflexivity.
Qed.

Lemma partition_eq_spec s k m v :
  partition_eq s = (k, m, v) ->
  s = k ++ m ++ v /\ (forall c, In c k -> c <> "="%char) /\ (m = [] -> v = []).
Proof.
  revert k m v. induction s as [|c s IH]; intros k m v H; simpl in H.
  - injection H as <- <- <-. split; [reflexivity|]. split; [simpl; tauto|tauto].
  - destruct (Ascii.eqb c "="%char) eqn:E.
    + apply Ascii.eqb_eq in E. subst c. injection H as <- <- <-.
      split; [reflexivity|]. split; [simpl; tauto|discriminate].
    + destruct (partition_eq s) as [[k' m'] v'] eqn:Hp. injection H as <- <- <-.
      destruct (IH _ _ _ eq_refl) as (Hs & Hk & Hm). split; [simpl; f_equal; exact Hs|].
      split; [|exact Hm]. intros c' [<-|Hc']; [|apply Hk, Hc'].
      intros ->. discriminate.
Qed.

Lemma parse_step_ok d l :
  Forall (fun kv => prop_line_ok kv.1 kv.2) d ->
  (forall c, In c l -> c <> "013"%char) -> line_shape l ->
  Forall (fun kv => prop_line_ok kv.1 kv.2) (parse_step d l).
Proof.
  intros Hd Hcr (body & Hl & Hbody). unfold parse_step.
  assert (Hn : strip l = strip body).
  { destruct Hl as [->| ->]; [apply strip_snoc_space; reflexivity|reflexivity]. }
  assert (Hin : forall c, In c (strip l) -> c <> "010"%char /\ c <> "013"%char).
  { intros c Hc. rewrite Hn in Hc. apply strip_in in Hc. split; [apply Hbody, Hc|].
    apply Hcr. destruct Hl as [->| ->]; [apply in_or_app; left|]; exact Hc. }
  destruct (startswith_hash (strip l)) eqn:Hh; [exact Hd|].
  destruct (partition_eq (strip l)) as [[k m] v] eqn:Hp.
  destruct (partition_eq_spec _ _ _ _ Hp) as (Hs & Hk & Hm).
  apply (dict_set_forall (fun k v => prop_line_ok k v)); [exact Hd|].
  split; [|split; [|split]].
  - intros c Hc. split; [apply Hk, Hc|]. apply Hin. rewrite Hs. apply in_or_app. left. exact Hc.
  - intros c Hc. apply Hin. rewrite Hs. apply in_or_app. right. apply in_or_app. right. exact Hc.
  - intros c Hc. destruct k as [|a k]; [discriminate|]. simpl in Hc. injection Hc as <-.
    assert (E : hd_error (strip l) = Some a) by (rewrite Hs; reflexivity).
    split; [apply (strip_hd (l)), E|].
    rewrite Hs in Hh. simpl in Hh. intros ->. discriminate.
  - intros c Hc. destruct v as [|a v]; [discriminate|].
    destruct m as [|b m]; [specialize (Hm eq_refl); discriminate|].
    apply (strip_last l). rewrite Hs, !rev_app_distr, <- app_assoc.
    destruct (rev (a :: v)); [discriminate|exact Hc].
Qed.

Lemma fold_parse_ok lines d :
  Forall (fun kv => prop_line_ok kv.1 kv.2) d ->
  (forall l, In l lines -> (forall c, In c l -> c <> "013"%char) /\ line_shape l) ->
  Forall (fun kv => prop_line_ok kv.1 kv.2) (fold_left parse_step lines d).
Proof.
  revert d. induction lines as [|l ls IH]; intros d Hd Hl; simpl; [exact Hd|].
  apply IH; [|intros l' H; apply Hl; right; exact H].
  destruct (Hl l (or_introl eq_refl)) as [H1 H2]. apply parse_step_ok; assumption.
Qed.

Lemma parse_module_prop_ok s : Forall (fun kv => prop_line_ok kv.1 kv.2) (parse_module_prop s).
Proof. apply fold_parse_ok; [constructor|]. intros l Hl. apply (file_lines_shape s), Hl. Qed.

Lemma parse_module_prop_nodup s : NoDup (map fst (parse_module_prop s)).
Proof. apply parse_nodup_aux. constructor. Qed.

Lemma parse_format_ok d :
  NoDup (map fst d) -> Forall (fun kv => prop_line_ok kv.1 kv.2) d ->
  parse_module_prop (format_module_prop d) = d.
Proof.
  intros Hnd Hok. unfold parse_module_prop. rewrite file_lines_format by exact Hok.
  rewrite fold_parse_lines; [reflexivity|exact Hnd| |exact Hok]. simpl. tauto.
Qed.

(** X1. Parsing is stable under one format-and-parse round trip: for every
    text [s], [parse_module_prop (format_module_prop (parse_module_prop s))]
    equals [parse_module_prop s]. *)
Theorem parse_format_parse_idempotent s :
  parse_module_prop (format_module_prop (parse_module_prop s)) = parse_module_prop s.
Proof. apply parse_format_ok; [apply parse_module_prop_nodup|apply parse_module_prop_ok]. Qed.

Lemma file_lines_single l :
  (forall c, In c l -> c <> "010"%char /\ c <> "013"%char) ->
  file_lines (l ++ ["010"%char]) = [l ++ ["010"%char]].
Proof.
  intros H. unfold file_lines. rewrite translate_newlines_id.
  - rewrite lines_aux_line by (intros c Hc; apply H, Hc). reflexivity.
  - intros c Hc. apply in_app_or in Hc. destruct Hc as [Hc|[<-|[]]]; [apply H, Hc|discriminate].
Qed.

Lemma strip_comment c :
  startswith_hash (lstrip c) = true -> startswith_hash (strip c) = true.
Proof.
  intros Hh. destruct (strip_prefix_of_lstrip c) as [q Hq].
  destruct (lstrip c) as [|a y] eqn:E; [discriminate|].
  destruct (strip c) as [|b r] eqn:Es.
  - exfalso. unfold strip in Es. rewrite E in Es. simpl in Es.
    simpl in Hh. apply Ascii.eqb_eq in Hh. subst a.
    rewrite lstrip_snoc in Es. destruct (lstrip (rev y)); simpl in Es.
    + discriminate.
    + destruct (rev (l ++ ["#"%char])) eqn:F; [|discriminate].
      apply (f_equal (@length ascii)) in F. rewrite length_rev, length_app in F. simpl in F. lia.
  - simpl in Hq. injection Hq as <- _. exact Hh.
Qed.

(** X2. A line whose stripped text starts with [#] changes nothing: inserting
    such a line (with its newline) at a line boundary of a [module.prop] text
    leaves the parsed dictionary unchanged. *)
Theorem parse_module_prop_skips_comment a c b :
  (a = [] \/ last a = Some "010"%char) ->
  (forall x, In x c -> x <> "010"%char /\ x <> "013"%char) ->
  startswith_hash (lstrip c) = true ->
  parse_module_prop (a ++ (c ++ ["010"%char]) ++ b) = parse_module_prop (a ++ b).
Proof.
  intros Ha Hc Hh. unfold parse_module_prop.
  rewrite !(file_lines_app a) by exact Ha.
  rewrite (file_lines_app (c ++ ["010"%char]) b)
    by (right; rewrite last_app; reflexivity).
  rewrite file_lines_single by exact Hc.
  rewrite !fold_left_app. simpl. f_equal.
  unfold parse_step. rewrite strip_snoc_space by reflexivity.
  rewrite strip_comment by exact Hh. reflexivity.
Qed.

Lemma prop_line_app k v : prop_line (k, v) = (k ++ "="%char :: v) ++ ["010"%char].
Proof. unfold prop_line. simpl. rewrite <- app_assoc. reflexivity. Qed.

(** X3. A [key=value] line appended at a line boundary sets [key] to [value]
    in the parsed dictionary, whatever came before, and leaves every other
    key as it was ([key] and [value] without line breaks or an equals sign in
    the key, no surrounding whitespace, key not starting with [#]). *)
Theorem parse_module_prop_last_line_wins a k v :
  (a = [] \/ last a = Some "010"%char) -> prop_line_ok k v ->
  dict_lookup (parse_module_prop (a ++ prop_line (k, v))) k = Some v /\
  (forall k', k' <> k ->
     dict_lookup (parse_module_prop (a ++ prop_line (k, v))) k' =
     dict_lookup (parse_module_prop a) k').
Proof.
  intros Ha Hok. unfold parse_module_prop.
  rewrite file_lines_app by exact Ha.
  assert (Hl : file_lines (prop_line (k, v)) = [prop_line (k, v)]).
  { rewrite prop_line_app. apply file_lines_single.
    destruct Hok as (Hk & Hv & _). intros c Hc. apply in_app_or in Hc.
    destruct Hc as [Hc|[<-|Hc]].
    - destruct (Hk c Hc) as (_ & H1 & H2). split; assumption.
    - split; discriminate.
    - apply Hv, Hc. }
  rewrite Hl, fold_left_app. simpl. rewrite parse_step_line by exact Hok.
  split; [apply dict_lookup_set_eq|]. intros k' Hne. apply dict_lookup_set_ne, Hne.
Qed.

Lemma description_ok version :
  (forall c, In c version -> c <> "010"%char /\ c <> "013"%char) ->
  prop_line_ok (text_of "description") (description_of version).
Proof.
  intros Hv. split; [|split; [|split]].
  - intros c Hc. simpl in Hc. repeat (destruct Hc as [<-|Hc]; [repeat split; discriminate|]). destruct Hc.
  - intros c Hc. unfold description_of in Hc. apply in_app_or in Hc. destruct Hc as [Hc|Hc].
    + simpl in Hc. repeat (destruct Hc as [<-|Hc]; [split; discriminate|]). destruct Hc.
    + apply in_app_or in Hc. destruct Hc as [Hc|Hc]; [apply Hv, Hc|].
      simpl in Hc. repeat (destruct Hc as [<-|Hc]; [split; discriminate|]). destruct Hc.
  - intros c Hc. simpl in Hc. injection Hc as <-. split; [reflexivity|discriminate].
  - intros c Hc. unfold description_of in Hc. rewrite !rev_app_distr in Hc.
    simpl in Hc. injection Hc as <-. reflexivity.
Qed.

(** X4. In [_package_module], the [module.prop] written into the zip parses
    back to the parsed [module.prop] with [description] set to
    [CPython <version> for Android] (for a version without line breaks):
    [description] has that value and every other key keeps its value. *)
Theorem package_module_sets_description content version name zip_path module_prop :
  (forall c, In c version -> c <> "010"%char /\ c <> "013"%char) ->
  _package_module_head content (description_of version) name = inr (zip_path, module_prop) ->
  parse_module_prop module_prop =
    dict_set (parse_module_prop content) (text_of "description") (description_of version) /\
  dict_lookup (parse_module_prop module_prop) (text_of "description") = Some (description_of version) /\
  (forall k, k <> text_of "description" ->
     dict_lookup (parse_module_prop module_prop) k = dict_lookup (parse_module_prop content) k).
Proof.
  intros Hv Hr. unfold _package_module_head in Hr.
  destruct (substitute _ _); [discriminate|]. injection Hr as _ <-.
  rewrite parse_format_ok.
  - split; [reflexivity|]. split; [apply dict_lookup_set_eq|].
    intros k Hk. apply dict_lookup_set_ne, Hk.
  - apply dict_set_nodup, parse_module_prop_nodup.
  - apply (dict_set_forall (fun k v => prop_line_ok k v)); [apply parse_module_prop_ok|].
    apply description_ok, Hv.
Qed.

(* Template.substitute *)

Lemma emap_emap f g r : emap f (emap g r) = emap (fun x => f (g x)) r.
Proof. destruct r; reflexivity. Qed.

Lemma subst_escape_app m a r :
  subst_go m TText (escape_dollars a ++ r) = emap (app a) (subst_go m TText r).
Proof.
  induction a as [|c a IH]; simpl.
  - destruct (subst_go m TText r); reflexivity.
  - destruct (Ascii.eqb c "$"%char) eqn:E.
    + apply Ascii.eqb_eq in E. subst c. simpl. rewrite IH, emap_emap. reflexivity.
    + simpl. rewrite E, IH, emap_emap. reflexivity.
Qed.

Lemma subst_braced_acc m r acc rest :
  Forall (fun c => is_ident_char c = true) r ->
  subst_go m (TBraced acc) (r ++ rest) = subst_go m (TBraced (rev r ++ acc)) rest.
Proof.
  revert acc. induction r as [|c r IH]; intros acc Hr; [reflexivity|].
  inversion Hr; subst. simpl. rewrite H1, IH by assumption.
  rewrite <- app_assoc. reflexivity.
Qed.

Theorem substitute_escapes_and_braced m a k b :
  substitute (escape_dollars a) m = inr a /\
  (match k with c0 :: r => is_ident_start c0 = true /\ Forall (fun c => is_ident_char c = true) r
              | [] => False end ->
   substitute (escape_dollars a ++ text_of "${" ++ k ++ text_of "}" ++ escape_dollars b) m =
     match dict_lookup m k with
     | Some v => inr (a ++ v ++ b)
     | None => inl (PyError (KeyError (string_of_list_ascii k)))
     end).
Proof.
  split.
  - unfold substitute. rewrite <- (app_nil_r (escape_dollars a)), subst_escape_app.
    simpl. rewrite app_nil_r. reflexivity.
  - destruct k as [|c0 r]; [tauto|]. intros [H0 Hr]. unfold substitute.
    rewrite subst_escape_app. simpl.
    assert (Hc0 : is_ident_char c0 = true) by (unfold is_ident_char; rewrite H0; reflexivity).
    rewrite H0.
    change ((r ++ "}"%char :: escape_dollars b)) with (r ++ "}"%char :: escape_dollars b).
    rewrite subst_braced_acc by exact Hr. simpl.
    rewrite rev_app_distr, rev_involutive. simpl. unfold map_get.
    destruct (dict_lookup m (c0 :: r)) as [v|]; [|reflexivity].
    rewrite <- (app_nil_r (escape_dollars b)), subst_escape_app. simpl.
    rewrite app_nil_r. reflexivity.
Qed.

Section ProcessProofs.

Variable St : Type.
Variable exec : St -> invocation -> St * Z.
Variable file_exists : St -> string -> bool.

(** A run that ends in an error ends with the command that failed. *)
Definition fails_at_last {A} (m : M St A) : Prop :=
  forall s s' tr e, m s = (s', tr, inl e) ->
  exists inv rc, last tr = Some inv /\ e = ProcessError rc (argv inv) /\
                 rc <> 0%Z /\ inv_check inv = true.

Lemma fails_at_last_ret {A} (x : A) : fails_at_last (ret x).
Proof. intros s s' tr e H. discriminate H. Qed.

Lemma fails_at_last_exists p : fails_at_last (exists_m file_exists p).
Proof. intros s s' tr e H. discriminate H. Qed.

Lemma fails_at_last_run cmd cwd env check : fails_at_last (run exec cmd cwd env check).
Proof.
  intros s s' tr e H. unfold run in H.
  destruct (exec s _) as [s1 rc] eqn:E.
  match type of H with (_, _, ?r) = _ => destruct r eqn:R end; inversion H; subst; clear H.
  destruct (_ && _) eqn:C; [|discriminate R].
  injection R as <-. apply andb_prop in C as [C1 C2].
  eexists _, rc. split; [reflexivity|]. simpl. split; [reflexivity|]. split; [|exact C1].
  apply negb_true_iff, Z.eqb_neq in C2. exact C2.
Qed.

Lemma fails_at_last_bind {A B} (m : M St A) (f : A -> M St B) :
  fails_at_last m -> (forall x, fails_at_last (f x)) -> fails_at_last (bind m f).
Proof.
  intros Hm Hf s s' tr e H. unfold bind in H.
  destruct (m s) as [[s1 tr1] [e1|x]] eqn:Em.
  - inversion H; subst. eapply Hm; exact Em.
  - destruct (f x s1) as [[s2 tr2] r] eqn:Ef. inversion H; subst.
    destruct (Hf x s1 s' tr2 e Ef) as (inv & rc & Hl & He & Hrc & Hc).
    exists inv, rc. rewrite last_app, Hl. auto.
Qed.

Lemma fails_at_last_build_hosts_loop source_dir android env args hosts :
  fails_at_last (build_hosts_loop exec file_exists source_dir android env args hosts).
Proof.
  induction hosts as [|h hs IH]; simpl.
  - apply fails_at_last_ret.
  - apply fails_at_last_bind; [apply fails_at_last_exists|]. intros [|].
    + exact IH.
    + apply fails_at_last_bind; [apply fails_at_last_run|]. intros _.
      apply fails_at_last_bind; [apply fails_at_last_run|]. intros _. exact IH.
Qed.

Lemma fails_at_last_build_hosts source_dir env hosts args :
  fails_at_last (_build_hosts exec file_exists source_dir env hosts args).
Proof.
  unfold _build_hosts. apply fails_at_last_bind; [apply fails_at_last_exists|]. intros e.
  apply fails_at_last_bind; [|intros; apply fails_at_last_build_hosts_loop].
  destruct e; [apply fails_at_last_ret|].
  apply fails_at_last_bind; [apply fails_at_last_run|]. intros _.
  apply fails_at_last_bind; [apply fails_at_last_run|]. intros _. apply fails_at_last_ret.
Qed.

Lemma build_hosts_loop_exact source_dir env args s0 hosts s s' tr :
  NoDup hosts ->
  (forall s inv h h', In h hosts -> In h' hosts -> h' <> h ->
   In inv (host_invs source_dir env args h') ->
   file_exists (exec s inv).1 (host_prefix source_dir h) = file_exists s (host_prefix source_dir h)) ->
  (forall h, In h hosts ->
   file_exists s (host_prefix source_dir h) = file_exists s0 (host_prefix source_dir h)) ->
  build_hosts_loop exec file_exists source_dir (path_join source_dir "Android") env args hosts s
    = (s', tr, inr tt) ->
  tr = concat (map (host_invs source_dir env args)
         (List.filter (fun h => negb (file_exists s0 (host_prefix source_dir h))) hosts)).
Proof.
  revert s tr.
  induction hosts as [|h hosts IH]; intros s tr Hnd Hfr Hs H; simpl in H.
  - inversion H; subst. reflexivity.
  - apply NoDup_cons in Hnd as [Hh Hnd'].
    unfold bind at 1, exists_m in H.
    assert (E0 := Hs h (or_introl eq_refl)). unfold host_prefix in E0.
    cbn [List.filter]. unfold host_prefix at 1.
    destruct (file_exists s _) eqn:Ef; rewrite <- E0; cbn [negb].
    + destruct (build_hosts_loop _ _ _ _ _ _ hosts s) as [[s2 tr2] r] eqn:E.
      inversion H; subst. apply (IH s); [exact Hnd'| |intros h' Hh'; apply Hs; right; exact Hh'|exact E].
      intros s1 inv k k' Hk Hk'. apply Hfr; right; assumption.
    + unfold bind at 1, run at 1 in H.
      match type of H with context [exec s ?i] => set (inv1 := i) in H end.
      assert (Hi1 : In inv1 (host_invs source_dir env args h)) by (left; reflexivity).
      destruct (exec s inv1) as [s1 rc1] eqn:E1. simpl in H.
      destruct (rc1 =? 0)%Z; simpl in H; [|discriminate H].
      unfold bind, run at 1 in H.
      match type of H with context [exec s1 ?i] => set (inv2 := i) in H end.
      assert (Hi2 : In inv2 (host_invs source_dir env args h)) by (right; left; reflexivity).
      destruct (exec s1 inv2) as [s2 rc2] eqn:E2. simpl in H.
      destruct (rc2 =? 0)%Z; simpl in H; [|discriminate H].
      destruct (build_hosts_loop _ _ _ _ _ _ hosts s2) as [[s3 tr3] r] eqn:E3.
      inversion H; subst.
      rewrite (IH s2 tr3); [reflexivity|exact Hnd'| | |exact E3].
      { intros s4 inv k k' Hk Hk'. apply Hfr; right; assumption. }
      intros h' Hh'. assert (Hne : h <> h') by (intros <-; apply Hh, list_elem_of_In, Hh').
      pose proof (Hfr s inv1 h' h (or_intror Hh') (or_introl eq_refl) Hne Hi1) as F1.
      pose proof (Hfr s1 inv2 h' h (or_intror Hh') (or_introl eq_refl) Hne Hi2) as F2.
      rewrite E1 in F1. rewrite E2 in F2. simpl in F1, F2.
      rewrite F2, F1. apply Hs. right. exact Hh'.
Qed.

Lemma build_hosts_exact source_dir env hosts args s s' tr :
  NoDup hosts ->
  (forall s inv h, In h hosts -> In inv (setup_invs source_dir) ->
   file_exists (exec s inv).1 (host_prefix source_dir h) = file_exists s (host_prefix source_dir h)) ->
  (forall s inv h h', In h hosts -> In h' hosts -> h' <> h ->
   In inv (host_invs source_dir env args h') ->
   file_exists (exec s inv).1 (host_prefix source_dir h) = file_exists s (host_prefix source_dir h)) ->
  _build_hosts exec file_exists source_dir env hosts args s = (s', tr, inr tt) ->
  tr = (if file_exists s (path_join (path_join source_dir "cross-build") "build") then []
        else setup_invs source_dir) ++
       concat (map (host_invs source_dir env args)
         (List.filter (fun h => negb (file_exists s (host_prefix source_dir h))) hosts)).
Proof.
  intros Hnd Hset Hfr. unfold _build_hosts. cbv zeta. unfold bind at 1, exists_m.
  destruct (file_exists s _) eqn:Eb.
  - unfold bind at 1, ret at 1.
    destruct (build_hosts_loop _ _ _ _ _ _ hosts s) as [[s2 tr2] r] eqn:E.
    intros H. inversion H; subst.
    rewrite (build_hosts_loop_exact _ _ _ s _ _ _ _ Hnd Hfr (fun _ _ => eq_refl) E). reflexivity.
  - unfold bind at 1 2, run at 1.
    match goal with |- context [exec s ?i] => set (inv1 := i) end.
    assert (Hi1 : In inv1 (setup_invs source_dir)) by (left; reflexivity).
    destruct (exec s inv1) as [s1 rc1] eqn:E1. simpl.
    destruct (rc1 =? 0)%Z; simpl; [|discriminate].
    unfold bind at 1, run at 1.
    match goal with |- context [exec s1 ?i] => set (inv2 := i) end.
    assert (Hi2 : In inv2 (setup_invs source_dir)) by (right; left; reflexivity).
    destruct (exec s1 inv2) as [s2 rc2] eqn:E2. simpl.
    destruct (rc2 =? 0)%Z; simpl; [|discriminate].
    destruct (build_hosts_loop _ _ _ _ _ _ hosts s2) as [[s3 tr3] r] eqn:E3.
    intros H. inversion H; subst.
    assert (Hs2 : forall h, In h hosts ->
              file_exists s2 (host_prefix source_dir h) = file_exists s (host_prefix source_dir h)).
    { intros h Hh. pose proof (Hset s inv1 h Hh Hi1) as F1. pose proof (Hset s1 inv2 h Hh Hi2) as F2.
      rewrite E1 in F1. rewrite E2 in F2. simpl in F1, F2. rewrite F2, F1. reflexivity. }
    rewrite (build_hosts_loop_exact _ _ _ s hosts s2 _ _ Hnd Hfr Hs2 E3). reflexivity.
Qed.

Lemma download_shape version s :
  _download exec file_exists version s =
  if file_exists s (tarball_path version) then (s, [], inr (tarball_path version))
  else let '(s1, rc) := exec s (curl_inv (tarball_path version) (source_archive_url ++ tarball_name version)) in
       (s1, [curl_inv (tarball_path version) (source_archive_url ++ tarball_name version)],
        if (rc =? 0)%Z then inr (tarball_path version)
        else inl (ProcessError rc (curl_cmd (tarball_path version) (source_archive_url ++ tarball_name version)))).
Proof.
  unfold _download, bind, exists_m, ret, run. fold (tarball_path version).
  destruct (file_exists s _); [reflexivity|].
  unfold curl_inv. destruct (exec s _) as [s1 rc]. simpl. destruct (rc =? 0)%Z; reflexivity.
Qed.

Lemma cacert_shape include s :
  _download_and_include_cacert exec file_exists include s =
  if file_exists s cacert_path then (s, [], inr (include ++ [cacert_path]))
  else let '(s1, rc) := exec s (curl_inv cacert_path cacert_url) in
       (s1, [curl_inv cacert_path cacert_url],
        if (rc =? 0)%Z then inr (include ++ [cacert_path])
        else inl (ProcessError rc (curl_cmd cacert_path cacert_url))).
Proof.
  unfold _download_and_include_cacert, bind, exists_m, ret, run. fold cacert_path.
  destruct (file_exists s _); [reflexivity|].
  unfold curl_inv. destruct (exec s _) as [s1 rc]. simpl. destruct (rc =? 0)%Z; reflexivity.
Qed.

(** X5. [_build_hosts] runs the two setup commands ([configure-build],
    [make-build]) only when [cross-build/build] does not exist yet, then the
    two commands ([configure-host], [make-host]) of each host, in order,
    whose [cross-build/<host>/prefix] did not exist at the start: when the
    hosts are distinct and no setup command, nor a command of another host,
    creates or removes the prefix of a listed host.  On failure the last command run is
    the one that failed with a non-zero exit code. *)
Theorem build_hosts_trace source_dir env hosts args s :
  NoDup hosts ->
  (forall s inv h, In h hosts -> In inv (setup_invs source_dir) ->
   file_exists (exec s inv).1 (host_prefix source_dir h) = file_exists s (host_prefix source_dir h)) ->
  (forall s inv h h', In h hosts -> In h' hosts -> h' <> h ->
   In inv (host_invs source_dir env args h') ->
   file_exists (exec s inv).1 (host_prefix source_dir h) = file_exists s (host_prefix source_dir h)) ->
  let '(_, tr, r) := _build_hosts exec file_exists source_dir env hosts args s in
  (r = inr tt ->
   tr = (if file_exists s (path_join (path_join source_dir "cross-build") "build") then []
         else setup_invs source_dir) ++
        concat (map (host_invs source_dir env args)
          (List.filter (fun h => negb (file_exists s (host_prefix source_dir h))) hosts))) /\
  (forall e, r = inl e ->
   exists inv rc, last tr = Some inv /\ e = ProcessError rc (argv inv) /\
                  rc <> 0%Z /\ inv_check inv = true).
Proof.
  intros Hnd Hset Hfr.
  destruct (_build_hosts _ _ _ _ _ _ s) as [[s' tr] r] eqn:E. split.
  - intros ->. exact (build_hosts_exact _ _ _ _ _ _ _ Hnd Hset Hfr E).
  - intros e ->. exact (fails_at_last_build_hosts _ _ _ _ _ _ _ _ E).
Qed.

(** X6. [_download] runs [curl] only when the tarball is missing, at most
    once; it returns the tarball path or fails with the [ProcessError] of
    that [curl] call; after a successful call a second call runs nothing. *)
Theorem download_runs_curl_once version s :
  (forall s1, exec s (curl_inv (tarball_path version) (source_archive_url ++ tarball_name version))
              = (s1, 0%Z) -> file_exists s1 (tarball_path version) = true) ->
  let '(s1, tr, r) := _download exec file_exists version s in
  tr = (if file_exists s (tarball_path version) then []
        else [curl_inv (tarball_path version) (source_archive_url ++ tarball_name version)]) /\
  (r = inr (tarball_path version) \/
   exists rc, rc <> 0%Z /\
     r = inl (ProcessError rc (curl_cmd (tarball_path version) (source_archive_url ++ tarball_name version)))) /\
  (r = inr (tarball_path version) ->
   _download exec file_exists version s1 = (s1, [], inr (tarball_path version))).
Proof.
  intros Hw. rewrite download_shape.
  destruct (file_exists s (tarball_path version)) eqn:Ee.
  - split; [reflexivity|]. split; [left; reflexivity|]. intros _.
    rewrite download_shape, Ee. reflexivity.
  - destruct (exec s _) as [s1 rc] eqn:Ex. split; [reflexivity|].
    destruct (rc =? 0)%Z eqn:Rc.
    + apply Z.eqb_eq in Rc. subst rc. split; [left; reflexivity|]. intros _.
      rewrite download_shape, (Hw s1 eq_refl). reflexivity.
    + apply Z.eqb_neq in Rc. split; [right; exists rc; split; [exact Rc|reflexivity]|].
      discriminate.
Qed.

(** X7. [_download_and_include_cacert] downloads [cacert.pem] only when it is
    missing and returns the include list with the certificate path appended;
    calling it again on that result appends the path a second time. *)
Theorem cacert_appended_on_every_call include s :
  (forall s1, exec s (curl_inv cacert_path cacert_url) = (s1, 0%Z) ->
              file_exists s1 cacert_path = true) ->
  let '(s1, tr, r) := _download_and_include_cacert exec file_exists include s in
  tr = (if file_exists s cacert_path then [] else [curl_inv cacert_path cacert_url]) /\
  (r = inr (include ++ [cacert_path]) \/
   exists rc, rc <> 0%Z /\ r = inl (ProcessError rc (curl_cmd cacert_path cacert_url))) /\
  (r = inr (include ++ [cacert_path]) ->
   _download_and_include_cacert exec file_exists (include ++ [cacert_path]) s1
   = (s1, [], inr (include ++ [cacert_path; cacert_path]))).
Proof.
  intros Hw. rewrite cacert_shape.
  destruct (file_exists s cacert_path) eqn:Ee.
  - split; [reflexivity|]. split; [left; reflexivity|]. intros _.
    rewrite cacert_shape, Ee, <- app_assoc. reflexivity.
  - destruct (exec s _) as [s1 rc] eqn:Ex. split; [reflexivity|].
    destruct (rc =? 0)%Z eqn:Rc.
    + apply Z.eqb_eq in Rc. subst rc. split; [left; reflexivity|]. intros _.
      rewrite cacert_shape, (Hw s1 eq_refl), <- app_assoc. reflexivity.
    + apply Z.eqb_neq in Rc. split; [right; exists rc; split; [exact Rc|reflexivity]|].
      discriminate.
Qed.

Lemma resolve_S f t p :
  resolve (S f) t p = match lookup_entry t p with Some (Symlink q) => resolve f t q | r => r end.
Proof. reflexivity. Qed.

End ProcessProofs.

(** ** [update_env_path] *)

Lemma concat_cons sep x xs :
  xs <> [] -> String.concat sep (x :: xs) = (x ++ sep ++ String.concat sep xs)%string.
Proof. destruct xs; [congruence|reflexivity]. Qed.

Lemma concat_nested sep l m :
  m <> [] -> String.concat sep (l ++ [String.concat sep m]) = String.concat sep (l ++ m).
Proof.
  intros Hm. induction l as [|a l IH]; [reflexivity|].
  rewrite <- !app_comm_cons, !concat_cons, IH; [reflexivity| |].
  - intros E. apply app_eq_nil in E. tauto.
  - destruct l; discriminate.
Qed.

(** X9. Two calls of [update_env_path] on the same key compose: prepending
    [vs1] and then [vs2] equals prepending [vs2 ++ vs1] at once (for a
    non-empty [vs1]); other keys are never changed. *)
Theorem update_env_path_twice env key vs1 vs2 :
  vs1 <> [] ->
  update_env_path (update_env_path env key vs1) key vs2 = update_env_path env key (vs2 ++ vs1) /\
  (forall k, k <> key -> update_env_path env key vs1 !! k = env !! k).
Proof.
  intros Hne. split.
  - unfold update_env_path at 2 3. destruct (env !! key) as [p|] eqn:E.
    + unfold update_env_path. rewrite lookup_insert_eq, insert_insert_eq.
      rewrite concat_nested by (destruct vs1; discriminate).
      rewrite app_assoc. reflexivity.
    + unfold update_env_path. rewrite lookup_insert_eq, insert_insert_eq.
      rewrite concat_nested by exact Hne. reflexivity.
  - intros k Hk. unfold update_env_path.
    destruct (env !! key); apply lookup_insert_ne; congruence.
Qed.

(** ** [_prepare_environment] *)

(** X10. [_prepare_environment] succeeds exactly when [ANDROID_HOME] is set
    and [curl] and [patch] are on [PATH]; it changes the working directory to
    the project only on success, and otherwise fails with the first missing
    item in that order. *)
Theorem prepare_environment_outcome environ which cwd project_dir :
  let '(cwd', r) := _prepare_environment environ which cwd project_dir in
  (r = inr tt <-> is_Some (environ !! "ANDROID_HOME") /\ which "curl" = true /\ which "patch" = true) /\
  cwd' = match r with inr _ => project_dir | inl _ => cwd end /\
  (environ !! "ANDROID_HOME" = None ->
   r = inl (BuilderError "ANDROID_HOME environment variable is not set")) /\
  (is_Some (environ !! "ANDROID_HOME") -> which "curl" = false ->
   r = inl (BuilderError "Required tool not found in PATH: curl")) /\
  (is_Some (environ !! "ANDROID_HOME") -> which "curl" = true -> which "patch" = false ->
   r = inl (BuilderError "Required tool not found in PATH: patch")).
Proof.
  unfold _prepare_environment. destruct (environ !! "ANDROID_HOME") as [h|] eqn:Eh;
  [unfold check_tools, REQUIRED_TOOLS; destruct (which "curl") eqn:Ec;
   [destruct (which "patch") eqn:Ep|]|];
  repeat split; try done; try (intros; discriminate);
  try (intros (? & ? & ?); discriminate); try (intros [? ?]; discriminate);
  try (intros ([? ?] & _); discriminate); try (eexists; reflexivity);
  destruct (String.eqb cwd project_dir) eqn:Ed; [apply String.eqb_eq in Ed|]; congruence.
Qed.

(** ** [_prepare_project_directory] *)

Lemma lookup_entry_app t1 t2 p :
  lookup_entry (t1 ++ t2) p =
  match lookup_entry t1 p with Some n => Some n | None => lookup_entry t2 p end.
Proof.
  induction t1 as [|[q n] t1 IH]; simpl; [reflexivity|]. case_bool_decide; [reflexivity|exact IH].
Qed.

Lemma sub_app t e : sub t (t ++ e).
Proof. intros p n H. rewrite lookup_entry_app, H. reflexivity. Qed.

Lemma path_exists_sub t1 t2 p : sub t1 t2 -> path_exists t1 p = true -> path_exists t2 p = true.
Proof.
  unfold path_exists. intros Hs H. destruct (resolve _ t1 p) as [n|] eqn:E; [|discriminate].
  rewrite (resolve_sub _ _ _ _ _ Hs E). reflexivity.
Qed.

Lemma ensure_dir_ok t p t' :
  ensure_dir t p = inr t' ->
  path_exists t' p = true /\ sub t t' /\
  (forall q, q <> p -> lookup_entry t' q = lookup_entry t q) /\
  (lookup_entry t' p = lookup_entry t p \/
   (lookup_entry t p = None /\ lookup_entry t' p = Some Dir)).
Proof.
  unfold ensure_dir, mkdir. destruct (path_exists t p) eqn:Ep.
  - intros [= <-]. split; [exact Ep|]. split; [apply sub_refl|]. auto.
  - destruct (lexists t p) eqn:El; [discriminate|]. intros [= <-].
    unfold lexists in El. destruct (lookup_entry t p) eqn:Et; [discriminate|].
    split; [|split; [apply sub_app|]].
    + unfold path_exists, symlink_fuel. rewrite resolve_S, lookup_entry_app, Et. simpl.
      rewrite bool_decide_eq_true_2 by reflexivity. reflexivity.
    + split.
      * intros q Hq. rewrite lookup_entry_app. destruct (lookup_entry t q); [reflexivity|].
        simpl. rewrite bool_decide_eq_false_2 by congruence. reflexivity.
      * right. split; [reflexivity|]. rewrite lookup_entry_app, Et. simpl.
        rewrite bool_decide_eq_true_2 by reflexivity. reflexivity.
Qed.

Lemma ensure_dir_err t p e :
  ensure_dir t p = inl e ->
  path_exists t p = false /\ lexists t p = true /\ e = FileExistsError (String.concat "/" p).
Proof.
  unfold ensure_dir, mkdir. destruct (path_exists t p); [discriminate|].
  destruct (lexists t p); [|discriminate]. intros [= <-]. auto.
Qed.

Lemma ensure_dir_present t p : path_exists t p = true -> ensure_dir t p = inr t.
Proof. unfold ensure_dir. intros ->. reflexivity. Qed.

(** X11. [_prepare_project_directory] fails when [module] or [build.toml] is
    missing, or with [FileExistsError] when [build] or [dist] is a dangling
    entry; on success [build] and [dist] exist, nothing else changes, only a
    missing one is created (as a directory), and a second call changes
    nothing. *)
Theorem prepare_project_directory_outcome t :
  match _prepare_project_directory t with
  | inr t' =>
      path_exists t' ["build"] = true /\ path_exists t' ["dist"] = true /\ sub t t' /\
      (forall p, p <> ["build"] -> p <> ["dist"] -> lookup_entry t' p = lookup_entry t p) /\
      (forall d, d = "build" \/ d = "dist" ->
                 lookup_entry t' [d] = lookup_entry t [d] \/
                 (lookup_entry t [d] = None /\ lookup_entry t' [d] = Some Dir)) /\
      _prepare_project_directory t' = inr t'
  | inl e =>
      (path_exists t ["module"] = false /\
       e = PyError (BuilderError "Module directory not found: module")) \/
      (path_exists t ["module"] = true /\ path_exists t ["build.toml"] = false /\
       e = PyError (BuilderError "Build configuration file not found: build.toml")) \/
      (exists d, (d = "build" \/ d = "dist") /\ path_exists t ["module"] = true /\
                 path_exists t ["build.toml"] = true /\ lexists t [d] = true /\
                 path_exists t [d] = false /\ e = FileExistsError d)
  end.
Proof.
  unfold _prepare_project_directory.
  destruct (path_exists t ["module"]) eqn:Em; simpl; [|left; auto].
  destruct (path_exists t ["build.toml"]) eqn:Ec; simpl; [|right; left; auto].
  destruct (ensure_dir t ["build"]) as [e|t1] eqn:E1.
  - apply ensure_dir_err in E1 as (Hp & Hl & ->). right; right. exists "build"%string. auto 8.
  - destruct (ensure_dir_ok _ _ _ E1) as (Hb1 & Hs1 & Hf1 & Hn1).
    destruct (ensure_dir t1 ["dist"]) as [e|t2] eqn:E2.
    + apply ensure_dir_err in E2 as (Hp & Hl & ->). right; right. exists "dist"%string.
      split; [right; reflexivity|]. split; [reflexivity|]. split; [reflexivity|].
      split.
      * unfold lexists in *. rewrite <- (Hf1 ["dist"]) by discriminate. exact Hl.
      * split; [|reflexivity].
        destruct (path_exists t ["dist"]) eqn:Hd; [|reflexivity].
        rewrite (path_exists_sub _ _ _ Hs1 Hd) in Hp. discriminate.
    + destruct (ensure_dir_ok _ _ _ E2) as (Hd2 & Hs2 & Hf2 & Hn2).
      assert (Hs : sub t t2) by (eapply sub_trans; eassumption).
      split; [exact (path_exists_sub _ _ _ Hs2 Hb1)|]. split; [exact Hd2|]. split; [exact Hs|].
      split; [intros p Hb Hd; rewrite Hf2, Hf1 by assumption; reflexivity|].
      split.
      * intros d [-> | ->].
        -- rewrite Hf2 by discriminate. exact Hn1.
        -- rewrite <- (Hf1 ["dist"]) by discriminate. exact Hn2.
      * rewrite (path_exists_sub _ _ _ Hs Em), (path_exists_sub _ _ _ Hs Ec). simpl.
        rewrite (ensure_dir_present t2 ["build"]) by exact (path_exists_sub _ _ _ Hs2 Hb1).
        apply ensure_dir_present, Hd2.
Qed.

(** ** The [--clean] loop *)

Lemma is_prefix_app c p : is_prefix c p = true <-> exists r, p = c ++ r.
Proof.
  revert p. induction c as [|a c IH]; intros p; simpl.
  - split; [intros _; exists p; reflexivity|intros _; reflexivity].
  - destruct p as [|b p].
    + split; [discriminate|intros [r Hr]; discriminate].
    + rewrite andb_true_iff, String.eqb_eq, IH. split.
      * intros [-> [r ->]]. exists r. reflexivity.
      * intros [r Hr]. injection Hr as -> ->. split; [reflexivity|]. exists r. reflexivity.
Qed.

Lemma is_prefix_trans a b c : is_prefix a b = true -> is_prefix b c = true -> is_prefix a c = true.
Proof.
  rewrite !is_prefix_app. intros [r1 ->] [r2 ->]. exists (r1 ++ r2). rewrite app_assoc. reflexivity.
Qed.

Lemma lookup_entry_in t p n : lookup_entry t p = Some n -> In p (map fst t).
Proof. intros H. apply lexists_in. unfold lexists. rewrite H. reflexivity. Qed.

Lemma chain_dir t (Hwf : parents_are_dirs t) c r n :
  c <> [] -> r <> [] -> lookup_entry t (c ++ r) = Some n -> lookup_entry t c = Some Dir.
Proof.
  intros Hc. revert n. induction r as [|x r IH] using rev_ind; intros n Hr H; [congruence|].
  rewrite app_assoc in H.
  assert (Hcr : c ++ r <> []) by (intros E; apply app_eq_nil in E; tauto).
  pose proof (Hwf _ _ _ H Hcr) as H0. clear H. rename H0 into H.
  destruct r as [|y r'].
  - rewrite app_nil_r in H. exact H.
  - apply (IH Dir); [discriminate|exact H].
Qed.

Lemma fold_remove_spec t (Hwf : parents_are_dirs t) ps : forall done tk,
  (forall p, lookup_entry tk p =
             if existsb (fun c => is_prefix c p) done then None else lookup_entry t p) ->
  (forall c, In c ps -> c <> []) ->
  forall p, lookup_entry (fold_left remove_path ps tk) p =
            if existsb (fun c => is_prefix c p) (done ++ ps) then None else lookup_entry t p.
Proof.
  induction ps as [|c ps IH]; intros done tk Hk Hne p; simpl.
  - rewrite app_nil_r. apply Hk.
  - replace (done ++ c :: ps) with ((done ++ [c]) ++ ps) by (rewrite <- app_assoc; reflexivity).
    apply IH; [|intros; apply Hne; right; assumption].
    clear p. intros p. rewrite existsb_app. simpl. rewrite orb_false_r.
    unfold remove_path. destruct (is_dir tk c && negb (is_symlink tk c)) eqn:Hd.
    + rewrite lookup_rmtree, Hk.
      destruct (existsb _ done), (is_prefix c p); reflexivity.
    + rewrite lookup_unlink, Hk.
      case_bool_decide as Hpc.
      * subst p. rewrite is_prefix_refl. destruct (existsb _ done); reflexivity.
      * destruct (existsb (fun c0 => is_prefix c0 p) done) eqn:Ed; [reflexivity|].
        destruct (is_prefix c p) eqn:Hcp; [|reflexivity].
        destruct (lookup_entry t p) as [n|] eqn:Ep; [|reflexivity].
        exfalso. apply is_prefix_app in Hcp as [r ->].
        assert (Hr : r <> []) by (intros ->; apply Hpc; rewrite app_nil_r; reflexivity).
        pose proof (chain_dir t Hwf c r n (Hne c (or_introl eq_refl)) Hr Ep) as Hc.
        assert (Hdc : existsb (fun c0 => is_prefix c0 c) done = false).
        { destruct (existsb (fun c0 => is_prefix c0 c) done) eqn:E; [|reflexivity].
          apply existsb_exists in E as (d & Hd1 & Hd2).
          rewrite <- Ed. symmetry. apply existsb_exists. exists d. split; [exact Hd1|].
          apply (is_prefix_trans _ _ _ Hd2). apply is_prefix_app. exists r. reflexivity. }
        specialize (Hk c). rewrite Hdc, Hc in Hk.
        unfold is_dir, is_symlink, symlink_fuel in Hd. rewrite resolve_S, Hk in Hd.
        discriminate Hd.
Qed.

Lemma children_shape t d c : In c (children t [d]) -> exists z, c = [d; z].
Proof.
  unfold children. rewrite filter_In. intros [_ H].
  destruct c as [|x [|z [|w c]]]; try discriminate.
  apply String.eqb_eq in H. subst x. exists z. reflexivity.
Qed.

Lemma children_in t d z : In [d; z] (map fst t) -> In [d; z] (children t [d]).
Proof. intros H. unfold children. apply filter_In. split; [exact H|]. apply String.eqb_refl. Qed.

Lemma children_covered t d p :
  existsb (fun c => is_prefix c p) (children t [d]) = true -> below d p = true.
Proof.
  intros H. apply existsb_exists in H as (c & Hc & Hp).
  apply children_shape in Hc as [z ->]. apply is_prefix_app in Hp as [r ->].
  simpl. apply String.eqb_refl.
Qed.

Lemma below_covered t (Hwf : parents_are_dirs t) t' d p n :
  lookup_entry t p = Some n -> below d p = true ->
  (forall z m, lookup_entry t [d; z] = Some m -> In [d; z] (map fst t')) ->
  existsb (fun c => is_prefix c p) (children t' [d]) = true.
Proof.
  intros Hp Hb Ht'. destruct p as [|y [|z r]]; try discriminate.
  simpl in Hb. apply String.eqb_eq in Hb. subst y.
  assert (Hm : exists m, lookup_entry t [d; z] = Some m).
  { destruct r as [|w r]; [exists n; exact Hp|].
    exists Dir. apply (chain_dir t Hwf [d; z] (w :: r) n); [discriminate|discriminate|exact Hp]. }
  destruct Hm as [m Hm]. apply existsb_exists. exists [d; z]. split.
  - apply children_in. eapply Ht'. exact Hm.
  - apply is_prefix_app. exists r. reflexivity.
Qed.

(** X12. The [--clean] loop removes exactly the entries below [build] and
    [dist] and keeps the two directories and everything else ([build] and
    [dist] directories, parents of entries being directories). *)
Theorem clean_empties_build_and_dist t :
  parents_are_dirs t ->
  lookup_entry t ["build"] = Some Dir -> lookup_entry t ["dist"] = Some Dir ->
  forall p, lookup_entry (clean t) p =
            if below "build" p || below "dist" p then None else lookup_entry t p.
Proof.
  intros Hwf _ _.
  set (cb := children t ["build"]).
  set (t1 := fold_left remove_path cb t).
  assert (Hne : forall d c, In c (children t [d]) -> c <> []).
  { intros d c Hc. apply children_shape in Hc as [z ->]. discriminate. }
  assert (H1 : forall p, lookup_entry t1 p =
                 if existsb (fun c => is_prefix c p) cb then None else lookup_entry t p).
  { intros p. apply (fold_remove_spec t Hwf cb [] t); [reflexivity|apply Hne]. }
  assert (Hne1 : forall c, In c (children t1 ["dist"]) -> c <> []).
  { intros c Hc. apply children_shape in Hc as [z ->]. discriminate. }
  intros p. unfold clean. fold cb t1.
  rewrite (fold_remove_spec t Hwf (children t1 ["dist"]) cb t1 H1 Hne1 p).
  destruct (lookup_entry t p) as [n|] eqn:Ep;
    [|destruct (existsb _ _), (below _ _ || below _ _); reflexivity].
  rewrite existsb_app.
  destruct (existsb (fun c => is_prefix c p) cb) eqn:Eb.
  - apply children_covered in Eb. rewrite Eb. reflexivity.
  - destruct (existsb (fun c => is_prefix c p) (children t1 ["dist"])) eqn:Ed.
    + apply children_covered in Ed. rewrite Ed. destruct (below "build" p); reflexivity.
    + destruct (below "build" p) eqn:Bb.
      * assert (Hc : existsb (fun c => is_prefix c p) cb = true)
          by (apply (below_covered t Hwf t "build" p n Ep Bb);
              intros z m Hm; eapply lookup_entry_in; exact Hm).
        congruence.
      * destruct (below "dist" p) eqn:Bd; [|reflexivity].
        rewrite (below_covered t Hwf t1 "dist" p n Ep Bd) in Ed; [discriminate|].
        intros z m Hm. apply (lookup_entry_in t1 _ m). rewrite H1, Hm.
        destruct (existsb (fun c => is_prefix c ["dist"; z]) cb) eqn:E; [|reflexivity].
        apply children_covered in E. discriminate E.
Qed.

Lemma kwargs_match_iff kvs fields :
  Config.kwargs_match kvs fields = true -> forall k, In k (map fst kvs) <-> In k fields.
Proof.
  unfold Config.kwargs_match. rewrite andb_true_iff, !forallb_forall. intros [H1 H2] k. split.
  - intros Hk. apply H1, existsb_exists in Hk as (f & Hf & E). apply String.eqb_eq in E. subst f. exact Hf.
  - intros Hk. apply H2, existsb_exists in Hk as (f & Hf & E). apply String.eqb_eq in E. subst f. exact Hf.
Qed.

Lemma lstrip_v_head s :
  match Config.lstrip_v s with String c _ => c <> "v"%char | EmptyString => True end.
Proof.
  induction s as [|a s IH]; simpl; [exact I|].
  destruct (Ascii.eqb a "v") eqn:E; [exact IH|].
  intros ->. discriminate E.
Qed.

Lemma tget_tab kvs k v : Config.tget (Config.TTab kvs) k = inr v -> Config.assoc kvs k = Some v.
Proof. simpl. destruct (Config.assoc kvs k); congruence. Qed.

Lemma map_paths_strs l ps : Config.map_paths l = inr ps -> map Config.TStr ps = l.
Proof.
  revert ps. induction l as [|v l IH]; intros ps H; simpl in H.
  - injection H as <-. reflexivity.
  - destruct v; simpl in H; try discriminate.
    destruct (Config.map_paths l) eqn:E; [discriminate|]. injection H as <-. simpl. rewrite (IH _ eq_refl). reflexivity.
Qed.

Lemma map_TStr_inj ps qs : map Config.TStr ps = map Config.TStr qs -> ps = qs.
Proof.
  revert qs. induction ps as [|a ps IH]; intros [|b qs] H; simpl in H; try discriminate; [reflexivity|].
  injection H as -> H. f_equal. apply IH, H.
Qed.

Lemma map_paths_chars str ps :
  Config.map_paths (map (fun c => Config.TStr (String c EmptyString)) (list_ascii_of_string str)) = inr ps ->
  ps = map (fun c => String c EmptyString) (list_ascii_of_string str).
Proof.
  intros H. apply map_paths_strs in H. apply map_TStr_inj.
  rewrite H, map_map. reflexivity.
Qed.

(** X13. A successful [load_config] read and parsed the file, both sections
    are tables whose keys are exactly the dataclass fields, the version is
    the raw one with leading [v] removed (so it does not start with [v]),
    [name] is the raw value, and [include] holds the strings of an array, or
    the characters of a string. *)
Theorem load_config_result read_bytes toml_load file c m :
  Config.load_config read_bytes toml_load file = inr (c, m) ->
  exists b config cp md ver inc,
    read_bytes file = Some b /\ toml_load b = inr config /\
    Config.assoc config "cpython" = Some (Config.TTab cp) /\ Config.assoc config "module" = Some (Config.TTab md) /\
    (forall k, In k (map fst cp) <-> In k Config.cpython_fields) /\
    (forall k, In k (map fst md) <-> In k Config.module_fields) /\
    Config.assoc cp "version" = Some (Config.TStr ver) /\ Config.version c = Config.lstrip_v ver /\
    match Config.version c with String ch _ => ch <> "v"%char | EmptyString => True end /\
    Config.assoc md "name" = Some (Config.name m) /\ Config.assoc md "include" = Some inc /\
    (forall l, inc = Config.TArr l -> map Config.TStr (Config.include m) = l) /\
    (forall str, inc = Config.TStr str ->
       Config.include m = map (fun ch => String ch EmptyString) (list_ascii_of_string str)).
Proof.
  unfold Config.load_config, Config._process_raw_config.
  destruct (read_bytes file) as [b|] eqn:Eb; [|discriminate].
  destruct (toml_load b) as [msg|config] eqn:Et; [discriminate|].
  destruct (_ || _); [discriminate|].
  destruct (Config.tget (Config.TTab config) "module") as [|module] eqn:E1; [discriminate|].
  destruct (Config.tget module "include") as [|inc] eqn:E2; [discriminate|].
  destruct (Config.tget module "name") as [|nm] eqn:E3; [discriminate|].
  destruct (Config.tget (Config.TTab config) "cpython") as [|cpython] eqn:E4; [discriminate|].
  destruct (Config.tget cpython "version") as [|cv] eqn:E5; [discriminate|].
  destruct (Config.py_iter inc) as [|items] eqn:E6; [discriminate|].
  destruct (Config.map_paths items) as [|ps] eqn:E7; [discriminate|].
  destruct cv as [ver| | | | | |]; try discriminate.
  destruct cpython as [| | | | | |cp]; try discriminate.
  destruct module as [| | | | | |md]; try discriminate.
  destruct (Config.kwargs_match cp Config.cpython_fields) eqn:K1; [|discriminate].
  destruct (Config.kwargs_match md Config.module_fields) eqn:K2; [|discriminate].
  simpl. intros [= <- <-].
  exists b, config, cp, md, ver, inc.
  split; [reflexivity|]. split; [exact Et|].
  split; [apply tget_tab, E4|]. split; [apply tget_tab, E1|].
  split; [exact (kwargs_match_iff _ _ K1)|]. split; [exact (kwargs_match_iff _ _ K2)|].
  split; [apply tget_tab, E5|]. split; [reflexivity|]. split; [apply lstrip_v_head|].
  split; [apply tget_tab, E3|]. split; [apply tget_tab, E2|]. split.
  - intros l ->. simpl in E6. injection E6 as <-. apply map_paths_strs, E7.
  - intros str ->. simpl in E6. injection E6 as <-. apply map_paths_chars, E7.
Qed.

Lemma paths_map (f : path * node -> path * node) t :
  (forall e, (f e).1 = e.1) -> map fst (map f t) = map fst t.
Proof. intros Hf. rewrite map_map. apply map_ext. exact Hf. Qed.

Lemma fix_entry_path e : (fix_entry e).1 = e.1.
Proof.
  destruct e as [p n]. unfold fix_entry. destruct (bin_child p); [|reflexivity].
  destruct n as [c| |q]; [destruct (fix_content c)|..]; reflexivity.
Qed.

Lemma fix_content_fixed c c' : fix_content c = Some c' -> fix_content c' = None.
Proof.
  unfold fix_content at 1. destruct (is_binary _); [discriminate|].
  destruct (shell_shebang_re _); [intros [= <-]; apply fix_content_target_shell|].
  destruct (python_shebang_re _); [intros [= <-]; apply fix_content_target_python|discriminate].
Qed.

Lemma fix_entry_idem e : fix_entry (fix_entry e) = fix_entry e.
Proof.
  destruct e as [p n]. unfold fix_entry.
  destruct (bin_child p) eqn:B; cbv beta iota; [|rewrite B; reflexivity].
  destruct n as [c| |q]; cbv beta iota; [|rewrite B; reflexivity..].
  destruct (fix_content c) as [c'|] eqn:E; cbv beta iota; rewrite B;
    [rewrite (fix_content_fixed _ _ E)|rewrite E]; reflexivity.
Qed.

Lemma fix_shebangs_twice t : _fix_shebangs (_fix_shebangs t) = _fix_shebangs t.
Proof.
  unfold _fix_shebangs. rewrite map_map. apply map_ext. apply fix_entry_idem.
Qed.

(** X14. [_fix_shebangs] is idempotent, keeps the set and order of paths, and
    changes only regular files directly under [bin], which stay regular
    files. *)
Theorem fix_shebangs_idempotent_local t :
  _fix_shebangs (_fix_shebangs t) = _fix_shebangs t /\
  map fst (_fix_shebangs t) = map fst t /\
  (forall p, lookup_entry (_fix_shebangs t) p = lookup_entry t p \/
             (bin_child p = true /\
              exists c c', lookup_entry t p = Some (File c) /\
                           lookup_entry (_fix_shebangs t) p = Some (File c'))).
Proof.
  split; [apply fix_shebangs_twice|]. split; [apply (paths_map fix_entry t fix_entry_path)|].
  intros p. rewrite lookup_fix_shebangs. destruct (lookup_entry t p) as [n|]; [|left; reflexivity].
  unfold fix_entry. destruct (bin_child p) eqn:B; [|left; reflexivity].
  destruct n as [c| |q]; [|left; reflexivity..].
  destruct (fix_content c) as [c'|]; [|left; reflexivity].
  right. split; [reflexivity|]. exists c, c'. split; reflexivity.
Qed.

Lemma lookup_entry_pair t p n : lookup_entry t p = Some n -> In (p, n) t.
Proof.
  induction t as [|[q m] t IH]; simpl; [discriminate|].
  case_bool_decide; [intros [= <-]; subst q; left; reflexivity|].
  intros H'. right. apply IH, H'.
Qed.

Lemma parents_are_dirs_b_spec t : parents_are_dirs_b t = true -> parents_are_dirs t.
Proof.
  unfold parents_are_dirs_b. intros H p x n Hl Hp.
  apply lookup_entry_pair in Hl. rewrite forallb_forall in H.
  specialize (H _ Hl). simpl in H. rewrite removelast_app in H by discriminate.
  simpl in H. rewrite app_nil_r in H. destruct p as [|y p]; [contradiction|].
  destruct (lookup_entry t (y :: p)) as [[]|]; try discriminate. reflexivity.
Qed.

(** ** Witnesses at concrete inputs *)

Lemma fix_shebangs_skips_binary_first_line_witness :
  lookup_entry bin_tree ["bin"; "python3.13"] = Some (File elf_head) /\
  is_binary (readline 1024 elf_head) = true /\
  lookup_entry (_fix_shebangs bin_tree) ["bin"; "python3.13"] = Some (File elf_head).
Proof.
  split; [reflexivity|split; [reflexivity|]].
  apply (fix_shebangs_skips_binary_first_line bin_tree ["bin"; "python3.13"] elf_head);
    vm_compute; reflexivity.
Defined.

Lemma fix_shebangs_replaces_first_line_witness :
  let c := bytes_of "#!/usr/bin/env python3.13" ++ [Byte.x0a] ++ bytes_of "import idlelib" in
  lookup_entry bin_tree ["bin"; "idle3"] = Some (File c) /\
  ((lookup_entry (_fix_shebangs bin_tree) ["bin"; "idle3"] = Some (File c) \/
    exists sb, (sb = shell_shebang \/ sb = python_shebang) /\
      lookup_entry (_fix_shebangs bin_tree) ["bin"; "idle3"] =
        Some (File (sb ++ drop (Nat.min 1024 (length (first_line c))) c))) /\
   (forall rest, c = python_shebang ++ rest \/ c = shell_shebang ++ rest ->
      lookup_entry (_fix_shebangs bin_tree) ["bin"; "idle3"] = Some (File c))).
Proof.
  cbv zeta. split; [reflexivity|].
  apply (fix_shebangs_replaces_first_line bin_tree ["bin"; "idle3"]); vm_compute; reflexivity.
Defined.


Lemma find_ndk_toolchain_spec_witness :
  _find_ndk_toolchain sample_read sample_environ sample_iterdir "cpython-3.13.1" =
    inr "/opt/android/ndk/27.2.12479018/toolchains/llvm/prebuilt/linux-x86_64".
Proof.
  destruct (find_ndk_toolchain_spec sample_read sample_environ sample_iterdir
              "cpython-3.13.1" android_env_sh "/opt/android")
    as (_ & H & _); [vm_compute; reflexivity|vm_compute; reflexivity|].
  apply (H (text_of "27.2.12479018")). vm_compute. reflexivity.
Defined.

Lemma parse_module_prop_skips_comment_witness :
  let a := text_of "id=py2droid" ++ ["010"%char] in
  let c := text_of "  # note" in
  let b := text_of "name=Py2Droid" ++ ["010"%char] in
  (a = [] \/ last a = Some "010"%char) /\
  (forall x, In x c -> x <> "010"%char /\ x <> "013"%char) /\
  startswith_hash (lstrip c) = true /\
  parse_module_prop (a ++ (c ++ ["010"%char]) ++ b) = parse_module_prop (a ++ b).
Proof.
  cbv zeta.
  assert (Ha : text_of "id=py2droid" ++ ["010"%char] = [] \/
               last (text_of "id=py2droid" ++ ["010"%char]) = Some "010"%char)
    by (right; reflexivity).
  assert (Hc : forall x, In x (text_of "  # note") -> x <> "010"%char /\ x <> "013"%char)
    by solve_in_chars.
  assert (Hh : startswith_hash (lstrip (text_of "  # note")) = true) by reflexivity.
  split; [exact Ha|split; [exact Hc|split; [exact Hh|]]].
  apply (parse_module_prop_skips_comment _ _ _ Ha Hc Hh).
Defined.

Lemma parse_module_prop_last_line_wins_witness :
  let a := commented_prop in
  let k := text_of "id" in
  let v := text_of "py2droid-next" in
  (a = [] \/ last a = Some "010"%char) /\ prop_line_ok k v /\
  dict_lookup (parse_module_prop (a ++ prop_line (k, v))) k = Some v /\
  (forall k', k' <> k ->
     dict_lookup (parse_module_prop (a ++ prop_line (k, v))) k' =
     dict_lookup (parse_module_prop a) k').
Proof.
  cbv zeta.
  assert (Ha : commented_prop = [] \/ last commented_prop = Some "010"%char)
    by (right; reflexivity).
  assert (Hok : prop_line_ok (text_of "id") (text_of "py2droid-next")).
  { unfold prop_line_ok; simpl; split_and!;
      [ solve_in_chars | solve_in_chars
      | intros c Hc; injection Hc as <-; split; [reflexivity|discriminate]
      | intros c Hc; injection Hc as <-; reflexivity ]. }
  split; [exact Ha|split; [exact Hok|]].
  apply (parse_module_prop_last_line_wins _ _ _ Ha Hok).
Defined.

Lemma package_module_sets_description_witness :
  let version := text_of "3.13.1" in
  let name := text_of "${id}-cpython.zip" in
  (forall c, In c version -> c <> "010"%char /\ c <> "013"%char) /\
  _package_module_head commented_prop (description_of version) name =
    inr ("dist/py2droid-cpython.zip",
         format_module_prop (dict_set (parse_module_prop commented_prop)
                               (text_of "description") (description_of version))) /\
  parse_module_prop (format_module_prop (dict_set (parse_module_prop commented_prop)
                               (text_of "description") (description_of version))) =
    dict_set (parse_module_prop commented_prop) (text_of "description") (description_of version) /\
  dict_lookup (parse_module_prop (format_module_prop (dict_set (parse_module_prop commented_prop)
                               (text_of "description") (description_of version))))
    (text_of "description") = Some (description_of version) /\
  (forall k, k <> text_of "description" ->
     dict_lookup (parse_module_prop (format_module_prop (dict_set (parse_module_prop commented_prop)
                               (text_of "description") (description_of version)))) k =
     dict_lookup (parse_module_prop commented_prop) k).
Proof.
  cbv zeta.
  assert (Hv : forall c, In c (text_of "3.13.1") -> c <> "010"%char /\ c <> "013"%char)
    by solve_in_chars.
  assert (Hr : _package_module_head commented_prop (description_of (text_of "3.13.1"))
                 (text_of "${id}-cpython.zip") =
    inr ("dist/py2droid-cpython.zip",
         format_module_prop (dict_set (parse_module_prop commented_prop)
                               (text_of "description") (description_of (text_of "3.13.1")))))
    by (vm_compute; reflexivity).
  split; [exact Hv|split; [exact Hr|]].
  apply (package_module_sets_description _ _ _ _ _ Hv Hr).
Defined.

Lemma download_runs_curl_once_witness :
  (forall s1, sample_exec [] (curl_inv (tarball_path "3.13.1")
                (source_archive_url ++ tarball_name "3.13.1")) = (s1, 0%Z) ->
              sample_exists s1 (tarball_path "3.13.1") = true) /\
  let '(s1, tr, r) := _download sample_exec sample_exists "3.13.1" [] in
  tr = (if sample_exists [] (tarball_path "3.13.1") then []
        else [curl_inv (tarball_path "3.13.1") (source_archive_url ++ tarball_name "3.13.1")]) /\
  (r = inr (tarball_path "3.13.1") \/
   exists rc, rc <> 0%Z /\
     r = inl (ProcessError rc (curl_cmd (tarball_path "3.13.1")
                                 (source_archive_url ++ tarball_name "3.13.1")))) /\
  (r = inr (tarball_path "3.13.1") ->
   _download sample_exec sample_exists "3.13.1" s1 = (s1, [], inr (tarball_path "3.13.1"))).
Proof.
  assert (Hw : forall s1, sample_exec [] (curl_inv (tarball_path "3.13.1")
                (source_archive_url ++ tarball_name "3.13.1")) = (s1, 0%Z) ->
              sample_exists s1 (tarball_path "3.13.1") = true).
  { intros s1 H. injection H as <-. vm_compute. reflexivity. }
  split; [exact Hw|].
  exact (download_runs_curl_once (list string) sample_exec sample_exists "3.13.1" [] Hw).
Defined.

Lemma cacert_appended_on_every_call_witness :
  (forall s1, sample_exec [] (curl_inv cacert_path cacert_url) = (s1, 0%Z) ->
              sample_exists s1 cacert_path = true) /\
  let '(s1, tr, r) := _download_and_include_cacert sample_exec sample_exists ["README.md"] [] in
  tr = (if sample_exists [] cacert_path then [] else [curl_inv cacert_path cacert_url]) /\
  (r = inr (["README.md"] ++ [cacert_path]) \/
   exists rc, rc <> 0%Z /\ r = inl (ProcessError rc (curl_cmd cacert_path cacert_url))) /\
  (r = inr (["README.md"] ++ [cacert_path]) ->
   _download_and_include_cacert sample_exec sample_exists (["README.md"] ++ [cacert_path]) s1
   = (s1, [], inr (["README.md"] ++ [cacert_path; cacert_path]))).
Proof.
  assert (Hw : forall s1, sample_exec [] (curl_inv cacert_path cacert_url) = (s1, 0%Z) ->
              sample_exists s1 cacert_path = true).
  { intros s1 H. injection H as <-. vm_compute. reflexivity. }
  split; [exact Hw|].
  exact (cacert_appended_on_every_call (list string) sample_exec sample_exists ["README.md"] [] Hw).
Defined.

Lemma update_env_path_twice_witness :
  ["/ndk/bin"] <> [] /\
  update_env_path (update_env_path sample_environ "PATH" ["/ndk/bin"]) "PATH" ["/cpython/bin"] =
    update_env_path sample_environ "PATH" (["/cpython/bin"] ++ ["/ndk/bin"]) /\
  (forall k, k <> "PATH" -> update_env_path sample_environ "PATH" ["/ndk/bin"] !! k = sample_environ !! k).
Proof.
  assert (Hne : ["/ndk/bin"] <> []) by discriminate.
  split; [exact Hne|].
  apply (update_env_path_twice sample_environ "PATH" _ ["/cpython/bin"] Hne).
Defined.

Lemma clean_empties_build_and_dist_witness :
  parents_are_dirs sample_project /\
  lookup_entry sample_project ["build"] = Some Dir /\
  lookup_entry sample_project ["dist"] = Some Dir /\
  forall p, lookup_entry (clean sample_project) p =
            if below "build" p || below "dist" p then None else lookup_entry sample_project p.
Proof.
  assert (Hwf : parents_are_dirs sample_project)
    by (apply parents_are_dirs_b_spec; vm_compute; reflexivity).
  assert (Hb : lookup_entry sample_project ["build"] = Some Dir) by reflexivity.
  assert (Hd : lookup_entry sample_project ["dist"] = Some Dir) by reflexivity.
  split; [exact Hwf|split; [exact Hb|split; [exact Hd|]]].
  apply (clean_empties_build_and_dist sample_project Hwf Hb Hd).
Defined.

Lemma load_config_result_witness :
  Config.load_config sample_read_bytes sample_toml_load "build.toml" =
    inr (sample_cpython_config, sample_module_config) /\
  exists b config cp md ver inc,
    sample_read_bytes "build.toml" = Some b /\ sample_toml_load b = inr config /\
    Config.assoc config "cpython" = Some (Config.TTab cp) /\
    Config.assoc config "module" = Some (Config.TTab md) /\
    (forall k, In k (map fst cp) <-> In k Config.cpython_fields) /\
    (forall k, In k (map fst md) <-> In k Config.module_fields) /\
    Config.assoc cp "version" = Some (Config.TStr ver) /\
    Config.version sample_cpython_config = Config.lstrip_v ver /\
    match Config.version sample_cpython_config with
    | String ch _ => ch <> "v"%char | EmptyString => True end /\
    Config.assoc md "name" = Some (Config.name sample_module_config) /\
    Config.assoc md "include" = Some inc /\
    (forall l, inc = Config.TArr l -> map Config.TStr (Config.include sample_module_config) = l) /\
    (forall str, inc = Config.TStr str ->
       Config.include sample_module_config =
         map (fun ch => String ch EmptyString) (list_ascii_of_string str)).
Proof.
  assert (H : Config.load_config sample_read_bytes sample_toml_load "build.toml" =
              inr (sample_cpython_config, sample_module_config)) by (vm_compute; reflexivity).
  split; [exact H|].
  exact (load_config_result sample_read_bytes sample_toml_load "build.toml" _ _ H).
Defined.

Lemma debloat_idempotent_witness :
  (forall t1 t2 p, simple_glob_match t1 (split_patterns lib_rules).1 p =
                   simple_glob_match t2 (split_patterns lib_rules).1 p) /\
  (forall raw rm, In (raw, rm) (split_patterns lib_rules).2 ->
   forall t1 t2 p, simple_glob_match t1 [raw] p = simple_glob_match t2 [raw] p) /\
  _debloat simple_glob_match (_debloat simple_glob_match lib_tree lib_rules) lib_rules =
    _debloat simple_glob_match lib_tree lib_rules.
Proof.
  assert (H1 : forall t1 t2 p, simple_glob_match t1 (split_patterns lib_rules).1 p =
                               simple_glob_match t2 (split_patterns lib_rules).1 p)
    by (intros; reflexivity).
  assert (H2 : forall raw rm, In (raw, rm) (split_patterns lib_rules).2 ->
               forall t1 t2 p, simple_glob_match t1 [raw] p = simple_glob_match t2 [raw] p).
  { intros raw rm H. simpl in H. destruct H as [[= <- <-]|[]]. intros; reflexivity. }
  split; [exact H1|split; [exact H2|]].
  apply (debloat_idempotent simple_glob_match lib_tree lib_rules H1 H2).
Defined.

Lemma build_hosts_trace_witness :
  let hosts := ["aarch64-linux-android"; "x86_64-linux-android"] in
  let s := [host_prefix "cpython" "aarch64-linux-android"] in
  NoDup hosts /\
  (forall s inv h, In h hosts -> In inv (setup_invs "cpython") ->
   sample_exists (sample_build_exec s inv).1 (host_prefix "cpython" h) =
   sample_exists s (host_prefix "cpython" h)) /\
  (forall s inv h h', In h hosts -> In h' hosts -> h' <> h ->
   In inv (host_invs "cpython" sample_environ [] h') ->
   sample_exists (sample_build_exec s inv).1 (host_prefix "cpython" h) =
   sample_exists s (host_prefix "cpython" h)) /\
  let '(_, tr, r) := _build_hosts sample_build_exec sample_exists "cpython" sample_environ hosts [] s in
  (r = inr tt ->
   tr = (if sample_exists s (path_join (path_join "cpython" "cross-build") "build") then []
         else setup_invs "cpython") ++
        concat (map (host_invs "cpython" sample_environ [])
          (List.filter (fun h => negb (sample_exists s (host_prefix "cpython" h))) hosts))) /\
  (forall e, r = inl e ->
   exists inv rc, last tr = Some inv /\ e = ProcessError rc (argv inv) /\
                  rc <> 0%Z /\ inv_check inv = true).
Proof.
  cbv zeta.
  assert (Hnd : NoDup ["aarch64-linux-android"; "x86_64-linux-android"])
    by (apply NoDup_cons; split; [set_solver|apply NoDup_singleton]).
  assert (Hset : forall s inv h, In h ["aarch64-linux-android"; "x86_64-linux-android"] ->
            In inv (setup_invs "cpython") ->
            sample_exists (sample_build_exec s inv).1 (host_prefix "cpython" h) =
            sample_exists s (host_prefix "cpython" h)).
  { intros s inv h _ [<-|[<-|[]]]; reflexivity. }
  assert (Hfr : forall s inv h h', In h ["aarch64-linux-android"; "x86_64-linux-android"] ->
            In h' ["aarch64-linux-android"; "x86_64-linux-android"] -> h' <> h ->
            In inv (host_invs "cpython" sample_environ [] h') ->
            sample_exists (sample_build_exec s inv).1 (host_prefix "cpython" h) =
            sample_exists s (host_prefix "cpython" h)).
  { intros s inv h h' Hh Hh' Hne Hinv.
    destruct Hh as [<-|[<-|[]]]; destruct Hh' as [<-|[<-|[]]]; try congruence;
      destruct Hinv as [<-|[<-|[]]]; reflexivity. }
  split; [exact Hnd|split; [exact Hset|split; [exact Hfr|]]].
  exact (build_hosts_trace (list string) sample_build_exec sample_exists "cpython" sample_environ
           ["aarch64-linux-android"; "x86_64-linux-android"] []
           [host_prefix "cpython" "aarch64-linux-android"] Hnd Hset Hfr).
Defined.
